(** * AstrBook adapter: forum memory and connection loop

    A shallow embedding of [adapter/forum_memory.py] and of the parts of
    [adapter/astrbook_adapter.py] that decide start-up, reconnection and the
    translation of notifications into memory entries.

    Python values are modelled as they are used by the code:
    - [str] is a sequence of Unicode code points ([pystr]), so that
      [content[:50]] counts characters, not bytes;
    - [int] is [Z]; slices follow Python's clamping rules;
    - [dict] is an insertion-ordered association list with distinct keys;
    - exceptions are values of [exn], threaded by a small state-and-error
      monad over the outside [world] (disk, I/O faults, logger). *)

From Stdlib Require Import List ZArith NArith Bool Ascii Lia.
From Stdlib Require String DecimalString.
Import ListNotations String.StringSyntax.

Delimit Scope string_scope with string.

(* ================================================================== *)
(** ** Python strings *)

Definition pystr := list N.

(** Decoder for the UTF-8 bytes of a string literal of this file: the
    accumulator holds the code point under construction and [need] the
    continuation bytes still expected. *)
Fixpoint utf8_go (need : nat) (acc : N) (bs : list N) : pystr :=
  match bs with
  | [] => []
  | b :: r =>
      match need with
      | S n =>
          let acc' := (acc * 64 + b mod 64)%N in
          match n with
          | O => acc' :: utf8_go 0 0%N r
          | S _ => utf8_go n acc' r
          end
      | O =>
          if (b <? 128)%N then b :: utf8_go 0 0%N r
          else if (b <? 224)%N then utf8_go 1 (b mod 32)%N r
          else if (b <? 240)%N then utf8_go 2 (b mod 16)%N r
          else utf8_go 3 (b mod 8)%N r
      end
  end.

(** [lit "..."] is the Python string written between the quotes. *)
Definition lit (s : String.string) : pystr :=
  utf8_go 0 0%N (map N_of_ascii (String.list_ascii_of_string s)).

Arguments lit s%_string.

Fixpoint str_eqb (a b : pystr) : bool :=
  match a, b with
  | [], [] => true
  | x :: a', y :: b' => (x =? y)%N && str_eqb a' b'
  | _, _ => false
  end.

(** [sep.join(parts)] *)
Fixpoint join (sep : pystr) (parts : list pystr) : pystr :=
  match parts with
  | [] => []
  | [p] => p
  | p :: rest => p ++ sep ++ join sep rest
  end.

Definition newline : pystr := [10%N].

(** Number of lines of a text, as [len(s.split("\n"))]. *)
Definition count_lines (s : pystr) : nat :=
  S (length (filter (fun c => (c =? 10)%N) s)).

(** A lone surrogate (U+D800 to U+DFFF) may occur in a [str] but has no
    UTF-8 encoding: writing it to a file opened with [encoding="utf-8"]
    raises [UnicodeEncodeError]. *)
Definition is_surrogate (c : N) : bool := ((55296 <=? c) && (c <=? 57343))%N.

Definition utf8_encodable (s : pystr) : bool :=
  forallb (fun c => negb (is_surrogate c)) s.

(** Python's [s.endswith(suffix)]. *)
Definition endswith (s suffix : pystr) : bool :=
  str_eqb (skipn (length s - length suffix) s) suffix
  && (length suffix <=? length s)%nat.

(* ================================================================== *)
(** ** Slices

    [l[a:]], [l[:b]] and [l[::-1]] on lists and strings.  A negative bound
    counts from the end, and every bound is clamped to [0 .. len(l)]. *)

Definition clamp_index (len : nat) (i : Z) : nat :=
  if (i <? 0)%Z then Z.to_nat (Z.max (Z.of_nat len + i) 0)
  else Nat.min (Z.to_nat i) len.

Definition slice_from {A} (l : list A) (a : Z) : list A :=
  skipn (clamp_index (length l) a) l.

Definition slice_to {A} (l : list A) (b : Z) : list A :=
  firstn (clamp_index (length l) b) l.

Definition slice_rev {A} (l : list A) : list A := rev l.

(* ================================================================== *)
(** ** Exceptions *)

Inductive exn : Type :=
  | OSError
  | JSONDecodeError
  | KeyError
  | TypeError
  | ValueError
  | AttributeError
  | UnicodeEncodeError
  | ClientError.

(* ================================================================== *)
(** ** [datetime] (naive, as produced by [datetime.now()]) *)

Module datetime.

Record t : Type := mk {
  year : N; month : N; day : N;
  hour : N; minute : N; second : N; microsecond : N }.

Definition is_leap (y : N) : bool :=
  ((y mod 4 =? 0) && (negb (y mod 100 =? 0) || (y mod 400 =? 0)))%N.

Definition days_in_month (y m : N) : N :=
  if (m =? 2)%N then (if is_leap y then 29 else 28)%N
  else if ((m =? 4) || (m =? 6) || (m =? 9) || (m =? 11))%N then 30%N
  else 31%N.

(** The field ranges every [datetime] object satisfies; the constructor
    raises [ValueError] outside of them. *)
Definition valid (d : t) : bool :=
  ((1 <=? year d) && (year d <=? 9999)
   && (1 <=? month d) && (month d <=? 12)
   && (1 <=? day d) && (day d <=? days_in_month (year d) (month d))
   && (hour d <? 24) && (minute d <? 60) && (second d <? 60)
   && (microsecond d <? 1000000))%N.

Definition digit (n : N) : N := (48 + n mod 10)%N.

(** [pad w n] is ["%0<w>d" % n] for [n < 10^w], most significant digit
    first. *)
Fixpoint pad (w : nat) (n : N) : pystr :=
  match w with
  | O => []
  | S w' => digit (n / 10 ^ N.of_nat w') :: pad w' n
  end.

Definition is_digit (c : N) : bool := ((48 <=? c) && (c <=? 57))%N.

(** Reads exactly [w] decimal digits. *)
Fixpoint take_digits (w : nat) (acc : N) (s : pystr) : option (N * pystr) :=
  match w with
  | O => Some (acc, s)
  | S w' =>
      match s with
      | c :: r =>
          if is_digit c then take_digits w' (10 * acc + (c - 48))%N r
          else None
      | [] => None
      end
  end.

Definition expect (c : N) (s : pystr) : option pystr :=
  match s with
  | x :: r => if (x =? c)%N then Some r else None
  | [] => None
  end.

Definition any_char (s : pystr) : option pystr :=
  match s with
  | _ :: r => Some r
  | [] => None
  end.

Definition dash : N := 45%N.
Definition colon : N := 58%N.
Definition dot : N := 46%N.
Definition letter_T : N := 84%N.
Definition space : N := 32%N.

(** [d.isoformat()]: [YYYY-MM-DDTHH:MM:SS], followed by [.ffffff] when
    the microsecond field is not zero. *)
Definition isoformat (d : t) : pystr :=
  pad 4 (year d) ++ dash :: pad 2 (month d) ++ dash :: pad 2 (day d)
  ++ letter_T :: pad 2 (hour d) ++ colon :: pad 2 (minute d)
  ++ colon :: pad 2 (second d)
  ++ (if (microsecond d =? 0)%N then [] else dot :: pad 6 (microsecond d)).

Definition bind_opt {A B} (o : option A) (k : A -> option B) : option B :=
  match o with Some a => k a | None => None end.

Definition parse_fraction (s : pystr) : option N :=
  match s with
  | [] => Some 0%N
  | _ =>
      bind_opt (expect dot s) (fun s =>
      bind_opt (take_digits 6 0%N s) (fun '(us, s) =>
      match s with [] => Some us | _ => None end))
  end.

Definition parse (s : pystr) : option t :=
  bind_opt (take_digits 4 0%N s) (fun '(y, s) =>
  bind_opt (expect dash s) (fun s =>
  bind_opt (take_digits 2 0%N s) (fun '(mo, s) =>
  bind_opt (expect dash s) (fun s =>
  bind_opt (take_digits 2 0%N s) (fun '(d, s) =>
  bind_opt (any_char s) (fun s =>
  bind_opt (take_digits 2 0%N s) (fun '(h, s) =>
  bind_opt (expect colon s) (fun s =>
  bind_opt (take_digits 2 0%N s) (fun '(mi, s) =>
  bind_opt (expect colon s) (fun s =>
  bind_opt (take_digits 2 0%N s) (fun '(se, s) =>
  bind_opt (parse_fraction s) (fun us =>
  Some (mk y mo d h mi se us))))))))))))).

(** [datetime.fromisoformat(s)] on the two layouts [isoformat] writes for
    a naive datetime (any single character is accepted as the date/time
    separator); [ValueError] on anything else and on out-of-range
    fields. *)
Definition fromisoformat (s : pystr) : exn + t :=
  match parse s with
  | Some d => if valid d then inr d else inl ValueError
  | None => inl ValueError
  end.

(** [d.strftime("%m-%d %H:%M")] *)
Definition strftime_md_HM (d : t) : pystr :=
  pad 2 (month d) ++ dash :: pad 2 (day d) ++ space
  :: pad 2 (hour d) ++ colon :: pad 2 (minute d).

End datetime.

(* ================================================================== *)
(** ** Python values and dictionaries *)

#[warnings="-register-all"]
Inductive pyval : Type :=
  | PNone
  | PBool (b : bool)
  | PInt (z : Z)
  | PStr (s : pystr)
  | PList (l : list pyval)
  | PTuple (l : list pyval)
  | PDict (d : list (pystr * pyval))
  | PBytes (b : list N).

(** A [dict] with string keys, in insertion order. *)
Definition pydict := list (pystr * pyval).

(** [d.get(k)], [None] of [option] standing for an absent key. *)
Fixpoint dict_get {V} (d : list (pystr * V)) (k : pystr) : option V :=
  match d with
  | [] => None
  | (k', v) :: r => if str_eqb k' k then Some v else dict_get r k
  end.

(** [d[k] = v]: an existing key keeps its position. *)
Fixpoint dict_set {V} (d : list (pystr * V)) (k : pystr) (v : V)
  : list (pystr * V) :=
  match d with
  | [] => [(k, v)]
  | (k', v') :: r =>
      if str_eqb k' k then (k', v) :: r else (k', v') :: dict_set r k v
  end.

(** [d.get(k, default)] *)
Definition dict_get_default {V} (d : list (pystr * V)) (k : pystr) (dflt : V) : V :=
  match dict_get d k with Some v => v | None => dflt end.

Definition has_key {V} (d : list (pystr * V)) (k : pystr) : bool :=
  match dict_get d k with Some _ => true | None => false end.

Fixpoint distinct_keys {V} (d : list (pystr * V)) : bool :=
  match d with
  | [] => true
  | (k, _) :: r => negb (has_key r k) && distinct_keys r
  end.

(** Every Python object satisfies [well_formed]: the keys of a [dict] are
    pairwise distinct, at every depth. *)
Fixpoint well_formed (v : pyval) : bool :=
  match v with
  | PList l | PTuple l => forallb well_formed l
  | PDict d =>
      distinct_keys d
      && (fix go (d : pydict) : bool :=
            match d with
            | [] => true
            | (_, x) :: r => well_formed x && go r
            end) d
  | _ => true
  end.

(** The values a JSON file gives back unchanged: [None], [bool], [int],
    [str] without lone surrogate, and lists and string-keyed dicts of such
    values.  A tuple is written as an array and a [bytes] object is
    refused. *)
Fixpoint json_native (v : pyval) : bool :=
  match v with
  | PNone | PBool _ | PInt _ => true
  | PStr s => utf8_encodable s
  | PList l => forallb json_native l
  | PDict d =>
      (fix go (d : pydict) : bool :=
         match d with
         | [] => true
         | (k, x) :: r => utf8_encodable k && json_native x && go r
         end) d
  | PTuple _ | PBytes _ => false
  end.

(** [v == z] for an [int] [z]: [True] and [False] compare as [1] and [0];
    every other kind of value differs from an [int]. *)
Definition py_eq_int (v : pyval) (z : Z) : bool :=
  match v with
  | PInt a => (a =? z)%Z
  | PBool b => (Z.b2z b =? z)%Z
  | _ => false
  end.

(** [str(z)] *)
Definition str_of_int (z : Z) : pystr :=
  lit (DecimalString.NilZero.string_of_int (Z.to_int z)).

(* ================================================================== *)
(** ** JSON documents

    The persisted file is represented by the JSON document its text
    denotes; the concrete layout ([indent=2], escapes) is not modelled. *)

#[warnings="-register-all"]
Inductive json : Type :=
  | JNull
  | JBool (b : bool)
  | JNum (z : Z)
  | JStr (s : pystr)
  | JArr (l : list json)
  | JObj (l : list (pystr * json)).

(** The document [json.dump(..., ensure_ascii=False)] writes into a UTF-8
    text file for a value, or the exception it raises: [TypeError] on an
    object that is not serializable, [UnicodeEncodeError] on a string
    that holds a lone surrogate. *)
Fixpoint json_encode (v : pyval) : exn + json :=
  match v with
  | PNone => inr JNull
  | PBool b => inr (JBool b)
  | PInt z => inr (JNum z)
  | PStr s => if utf8_encodable s then inr (JStr s) else inl UnicodeEncodeError
  | PList l | PTuple l =>
      match
        (fix go (l : list pyval) : exn + list json :=
           match l with
           | [] => inr []
           | x :: r =>
               match json_encode x with
               | inl e => inl e
               | inr j =>
                   match go r with
                   | inl e => inl e
                   | inr js => inr (j :: js)
                   end
               end
           end) l
      with
      | inl e => inl e
      | inr js => inr (JArr js)
      end
  | PDict d =>
      match
        (fix go (d : pydict) : exn + list (pystr * json) :=
           match d with
           | [] => inr []
           | (k, x) :: r =>
               if utf8_encodable k then
                 match json_encode x with
                 | inl e => inl e
                 | inr j =>
                     match go r with
                     | inl e => inl e
                     | inr js => inr ((k, j) :: js)
                     end
                 end
               else inl UnicodeEncodeError
           end) d
      with
      | inl e => inl e
      | inr js => inr (JObj js)
      end
  | PBytes _ => inl TypeError
  end.

(** The value [json.load] builds from a document: arrays become lists and
    objects become dicts, a repeated member name overwriting the earlier
    one. *)
Fixpoint json_decode (j : json) : pyval :=
  match j with
  | JNull => PNone
  | JBool b => PBool b
  | JNum z => PInt z
  | JStr s => PStr s
  | JArr l => PList (map json_decode l)
  | JObj l =>
      PDict ((fix go (l : list (pystr * json)) (acc : pydict) : pydict :=
                match l with
                | [] => acc
                | (k, x) :: r => go r (dict_set acc k (json_decode x))
                end) l [])
  end.

(* ================================================================== *)
(** ** The outside world and the monad of the methods *)

Inductive file_content : Type :=
  | Garbage                (* text that is not a JSON document *)
  | Document (j : json).

Inductive level : Type := DEBUG | INFO | ERROR.

Inductive log_msg : Type :=
  | MemAdded (memory_type shown : pystr)
  | MemLoaded (n : nat)
  | MemLoadFailed (e : exn)
  | MemSaveFailed (e : exn)
  | MemCleared
  | TokenNotConfigured
  | AdapterStarting
  | WsConnecting
  | WsConnected
  | WsConnectionError (e : exn)
  | WsUnexpectedError (e : exn)
  | WsReconnecting (delay : Z)
  | WsReceived (msg_type : option pystr)
  | WsErrorFrame
  | WsClosedByServer
  | ConnectedAs (user_id : option Z)
  | Notification (msg_type : option pystr) (from_username : pystr)
                 (thread_id : option Z)
  | NewThread (thread_title author : pystr).

(** [disk] is the content of [forum_memory.json] ([None]: no such file);
    [faults] is the environment's decision for each coming file-system
    operation, [true] making it raise [OSError]; once the list is used up
    the operations succeed. *)
Record world : Type := mkWorld {
  disk : option file_content;
  faults : list bool;
  logs : list (level * log_msg);
  slept : list Z }.

(** Computations over a mutable state [S] that return a value or raise.
    The state reached when an exception is raised is kept: an object
    mutated before the exception stays mutated. *)
Definition M (S A : Type) : Type := S -> (exn + A) * S.

Definition ret {S A} (a : A) : M S A := fun s => (inr a, s).

Definition raise {S A} (e : exn) : M S A := fun s => (inl e, s).

Definition bind {S A B} (m : M S A) (k : A -> M S B) : M S B :=
  fun s =>
    match m s with
    | (inr a, s') => k a s'
    | (inl e, s') => (inl e, s')
    end.

(** [try: body  except Exception as e: handler(e)] *)
Definition try_except {S A} (body : M S A) (handler : exn -> M S A) : M S A :=
  fun s =>
    match body s with
    | (inl e, s') => handler e s'
    | r => r
    end.

(** [try: body  finally: cleanup] *)
Definition try_finally {S A} (body : M S A) (cleanup : M S unit) : M S A :=
  fun s =>
    match body s with
    | (r, s') =>
        match cleanup s' with
        | (inr _, s'') => (r, s'')
        | (inl e, s'') => (inl e, s'')
        end
    end.

Notation "x <- m ;; k" := (bind m (fun x => k))
  (at level 61, m at next level, right associativity).
Notation "m ;; k" := (bind m (fun _ => k))
  (at level 61, right associativity).

Definition lift {S A} (r : exn + A) : M S A :=
  match r with inl e => raise e | inr a => ret a end.

(** Runs a computation on a part of the state. *)
Definition zoom {S T A} (proj : T -> S) (upd : S -> T -> T) (m : M S A)
  : M T A :=
  fun t => match m (proj t) with (r, s') => (r, upd s' t) end.

(** An object [O] together with the outside world. *)
Definition get_self {O} : M (O * world) O := fun s => (inr (fst s), s).

Definition put_self {O} (o : O) : M (O * world) unit :=
  fun s => (inr tt, (o, snd s)).

Definition in_world {O A} (m : M world A) : M (O * world) A :=
  zoom snd (fun w s => (fst s, w)) m.

Definition logger (l : level) (m : log_msg) : M world unit :=
  fun w =>
    (inr tt, mkWorld (disk w) (faults w) (logs w ++ [(l, m)]) (slept w)).

(** [await asyncio.sleep(d)] *)
Definition sleep (d : Z) : M world unit :=
  fun w => (inr tt, mkWorld (disk w) (faults w) (logs w) (slept w ++ [d])).

(** One file-system operation: raises [OSError] when the environment says
    so. *)
Definition io_op : M world unit :=
  fun w =>
    match faults w with
    | true :: fs => (inl OSError, mkWorld (disk w) fs (logs w) (slept w))
    | false :: fs => (inr tt, mkWorld (disk w) fs (logs w) (slept w))
    | [] => (inr tt, w)
    end.

(** [os.makedirs(dirname, exist_ok=True)] *)
Definition makedirs : M world unit := io_op.

(** [os.path.exists(path)] *)
Definition path_exists : M world bool :=
  fun w => (inr (match disk w with Some _ => true | None => false end), w).

(** [open(path)] followed by reading the whole file. *)
Definition open_read : M world file_content :=
  io_op ;;
  fun w =>
    match disk w with
    | Some c => (inr c, w)
    | None => (inl OSError, w)
    end.

Definition set_disk (c : file_content) : M world unit :=
  fun w => (inr tt, mkWorld (Some c) (faults w) (logs w) (slept w)).

(** [open(path, "w")]: the file is created or truncated. *)
Definition open_write : M world unit :=
  io_op ;; set_disk Garbage.

(** [json.load(f)] *)
Definition json_load : M world pyval :=
  c <- open_read ;;
  match c with
  | Garbage => raise JSONDecodeError
  | Document j => ret (json_decode j)
  end.

(** [json.dump(data, f)] into the file just opened: an object that cannot
    be serialized, or a failing write, leaves an incomplete text behind. *)
Definition json_dump (data : pyval) : M world unit :=
  j <- lift (json_encode data) ;;
  io_op ;;
  set_disk (Document j).

(** [[f(x) for x in l]] for an [f] that may raise. *)
Fixpoint comprehension {A B} (f : A -> exn + B) (l : list A) : exn + list B :=
  match l with
  | [] => inr []
  | x :: r =>
      match f x with
      | inl e => inl e
      | inr y =>
          match comprehension f r with
          | inl e => inl e
          | inr ys => inr (y :: ys)
          end
      end
  end.

(** The elements a [for] loop draws from a value: the items of a list or
    tuple, the keys of a dict, the characters of a string. *)
Definition iterate (v : pyval) : exn + list pyval :=
  match v with
  | PList l | PTuple l => inr l
  | PDict d => inr (map (fun kv => PStr (fst kv)) d)
  | PStr s => inr (map (fun c => PStr [c]) s)
  | PBytes b => inr (map (fun c => PInt (Z.of_N c)) b)
  | PNone | PBool _ | PInt _ => inl TypeError
  end.

(** [data[key]] for a string [key] *)
Definition subscript (data : pyval) (key : pystr) : exn + pyval :=
  match data with
  | PDict d =>
      match dict_get d key with
      | Some v => inr v
      | None => inl KeyError
      end
  | _ => inl TypeError
  end.

(* ================================================================== *)
(** ** [MemoryItem] *)

Module MemoryItem.

Record t : Type := mk {
  memory_type : pystr;
  content : pystr;
  timestamp : datetime.t;
  metadata : pydict }.

Definition to_dict (self : t) : pyval :=
  PDict [ (lit "memory_type", PStr (memory_type self));
          (lit "content", PStr (content self));
          (lit "timestamp", PStr (datetime.isoformat (timestamp self)));
          (lit "metadata", PDict (metadata self)) ].

(** The fields have the types the dataclass declares.  Python performs no
    check when the object is built; an entry whose [memory_type],
    [content] or [metadata] is of another type has no counterpart in
    [t] and is reported as a [TypeError] by [as_str] and [as_dict], once
    the arguments of the constructor are evaluated. *)
Definition as_str (v : pyval) : exn + pystr :=
  match v with PStr s => inr s | _ => inl TypeError end.

Definition as_dict (v : pyval) : exn + pydict :=
  match v with PDict d => inr d | _ => inl TypeError end.

Definition bind_exn {A B} (r : exn + A) (k : A -> exn + B) : exn + B :=
  match r with inl e => inl e | inr a => k a end.

(** [data.get("metadata", {})] *)
Definition get_metadata (data : pyval) : exn + pyval :=
  match data with
  | PDict d => inr (dict_get_default d (lit "metadata") (PDict []))
  | _ => inl AttributeError
  end.

Definition from_dict (data : pyval) : exn + t :=
  bind_exn (subscript data (lit "memory_type")) (fun memory_type =>
  bind_exn (subscript data (lit "content")) (fun content =>
  bind_exn (subscript data (lit "timestamp")) (fun ts =>
  bind_exn (as_str ts) (fun ts =>
  bind_exn (datetime.fromisoformat ts) (fun timestamp =>
  bind_exn (get_metadata data) (fun metadata =>
  bind_exn (as_str memory_type) (fun memory_type =>
  bind_exn (as_str content) (fun content =>
  bind_exn (as_dict metadata) (fun metadata =>
  inr (mk memory_type content timestamp metadata)))))))))).

End MemoryItem.

(* ================================================================== *)
(** ** [ForumMemory] *)

Module ForumMemory.

Record t : Type := mk {
  _max_items : Z;
  _memories : list MemoryItem.t }.

Definition set_memories (self : t) (l : list MemoryItem.t) : t :=
  mk (_max_items self) l.

Definition state : Type := (t * world)%type.

(** [metadata or {}] *)
Definition or_empty (metadata : option pydict) : pydict :=
  match metadata with
  | Some (kv :: r) => kv :: r
  | Some [] | None => []
  end.

Definition _save : M state unit :=
  try_except
    (self <- get_self ;;
     let data := PList (map MemoryItem.to_dict (_memories self)) in
     in_world open_write ;;
     in_world (json_dump data))
    (fun e => in_world (logger ERROR (MemSaveFailed e))).

Definition _load : M state unit :=
  present <- in_world path_exists ;;
  if negb present then ret tt
  else
    try_except
      (data <- in_world json_load ;;
       ds <- lift (iterate data) ;;
       items <- lift (comprehension MemoryItem.from_dict ds) ;;
       self <- get_self ;;
       put_self (set_memories self items) ;;
       in_world (logger DEBUG (MemLoaded (length items))))
      (fun e =>
         in_world (logger ERROR (MemLoadFailed e)) ;;
         self <- get_self ;;
         put_self (set_memories self [])).

(** [ForumMemory(max_items)]: the object the constructor returns. *)
Definition __init__ (max_items : Z) : M world t :=
  makedirs ;;
  fun w =>
    match _load (mk max_items [], w) with
    | (inr _, (self, w')) => (inr self, w')
    | (inl e, (_, w')) => (inl e, w')
    end.

(** [now] is the value [datetime.now()] gives the new item. *)
Definition add_memory (memory_type content : pystr)
    (metadata : option pydict) (now : datetime.t) : M state unit :=
  let item := MemoryItem.mk memory_type content now (or_empty metadata) in
  self <- get_self ;;
  put_self (set_memories self (_memories self ++ [item])) ;;
  self <- get_self ;;
  (if (Z.of_nat (length (_memories self)) >? _max_items self)%Z
   then put_self (set_memories self
                    (slice_from (_memories self) (- _max_items self)))
   else ret tt) ;;
  _save ;;
  in_world (logger DEBUG (MemAdded memory_type (slice_to content 50))).

(** Truth value of an optional [str] and of an optional [int]. *)
Definition truthy_str (o : option pystr) : bool :=
  match o with Some (_ :: _) => true | _ => false end.

Definition truthy_int (o : option Z) : bool :=
  match o with Some z => negb (z =? 0)%Z | None => false end.

Definition get_memories (memory_type : option pystr) (limit : option Z)
    (self : t) : list MemoryItem.t :=
  let items := _memories self in
  let items :=
    if truthy_str memory_type
    then filter (fun m => str_eqb (MemoryItem.memory_type m)
                            (match memory_type with
                             | Some s => s
                             | None => []
                             end)) items
    else items in
  let items := slice_rev items in
  let items :=
    if truthy_int limit
    then slice_to items (match limit with Some z => z | None => 0%Z end)
    else items in
  items.

Definition emojis : list (pystr * pystr) :=
  [ (lit "browsed", lit "👀");
    (lit "mentioned", lit "📢");
    (lit "replied", lit "💬");
    (lit "new_thread", lit "📝");
    (lit "created", lit "✍️");
    (lit "diary", lit "📔") ].

Definition _get_type_emoji (memory_type : pystr) : pystr :=
  dict_get_default emojis memory_type (lit "📌").

Definition no_activity : pystr := lit "最近没有论坛活动记录。".

Definition summary_header : pystr := lit "我最近在 AstrBook 论坛的活动：".

Definition summary_line (item : MemoryItem.t) : pystr :=
  let time_str := datetime.strftime_md_HM (MemoryItem.timestamp item) in
  let type_emoji := _get_type_emoji (MemoryItem.memory_type item) in
  lit "  " ++ type_emoji ++ lit " [" ++ time_str ++ lit "] "
  ++ MemoryItem.content item.

Definition get_summary (limit : Z) (self : t) : pystr :=
  let items := get_memories None (Some limit) self in
  match items with
  | [] => no_activity
  | _ => join newline (summary_header :: map summary_line items)
  end.

Definition about_thread (item : MemoryItem.t) (thread_id : Z) : bool :=
  py_eq_int (dict_get_default (MemoryItem.metadata item)
               (lit "thread_id") PNone) thread_id.

Definition no_thread_activity (thread_id : Z) : pystr :=
  lit "没有与帖子 #" ++ str_of_int thread_id ++ lit " 相关的活动记录。".

Definition context_header (thread_id : Z) : pystr :=
  lit "与帖子 #" ++ str_of_int thread_id ++ lit " 相关的活动：".

Definition context_line (item : MemoryItem.t) : pystr :=
  let time_str := datetime.strftime_md_HM (MemoryItem.timestamp item) in
  lit "  - [" ++ time_str ++ lit "] " ++ MemoryItem.content item.

Definition get_context_for_thread (thread_id : Z) (self : t) : pystr :=
  let items := filter (fun m => about_thread m thread_id) (_memories self) in
  match items with
  | [] => no_thread_activity thread_id
  | _ =>
      join newline
        (context_header thread_id
         :: map context_line (slice_from items (-5)))
  end.

Definition clear : M state unit :=
  self <- get_self ;;
  put_self (set_memories self []) ;;
  _save ;;
  in_world (logger INFO MemCleared).

Definition __len__ (self : t) : nat := length (_memories self).

End ForumMemory.

(* ================================================================== *)
(** ** [AstrBookAdapter] *)

Module AstrBookAdapter.

(** The coroutines [_run] schedules with [asyncio.create_task]. *)
Inductive task : Type := WsLoopTask | AutoBrowseTask.

(** What [_run] has done when it first gives control back: it returned,
    or it is suspended on [asyncio.gather] over its tasks. *)
Inductive run_status : Type := Returned | AwaitingGather.

(** The event committed to the host queue, with the message object it
    carries. *)
Record event : Type := mkEvent {
  ev_message_str : pystr;
  ev_self_id : pystr;
  ev_sender_user_id : pystr;
  ev_sender_nickname : pystr;
  ev_session_id : pystr;
  ev_message_id : pystr;
  ev_timestamp : Z;
  ev_thread_id : option Z;
  ev_reply_id : option Z;
  ev_extras : pydict;
  ev_is_wake : bool;
  ev_is_at_or_wake_command : bool }.

Record t : Type := mk {
  token : pystr;
  auto_browse : bool;
  browse_interval : Z;
  memory : ForumMemory.t;
  bot_user_id : option Z;
  _ws_connected : bool;
  _reconnect_delay : Z;
  _max_reconnect_delay : Z;
  _tasks : list task;
  event_queue : list event }.

Definition state : Type := (t * world)%type.

Definition set_memory (self : t) (m : ForumMemory.t) : t :=
  mk (token self) (auto_browse self) (browse_interval self) m
     (bot_user_id self) (_ws_connected self) (_reconnect_delay self)
     (_max_reconnect_delay self) (_tasks self) (event_queue self).

Definition set_bot_user_id (self : t) (u : option Z) : t :=
  mk (token self) (auto_browse self) (browse_interval self) (memory self)
     u (_ws_connected self) (_reconnect_delay self)
     (_max_reconnect_delay self) (_tasks self) (event_queue self).

Definition set_ws_connected (self : t) (b : bool) : t :=
  mk (token self) (auto_browse self) (browse_interval self) (memory self)
     (bot_user_id self) b (_reconnect_delay self)
     (_max_reconnect_delay self) (_tasks self) (event_queue self).

Definition set_tasks (self : t) (l : list task) : t :=
  mk (token self) (auto_browse self) (browse_interval self) (memory self)
     (bot_user_id self) (_ws_connected self) (_reconnect_delay self)
     (_max_reconnect_delay self) l (event_queue self).

Definition set_event_queue (self : t) (q : list event) : t :=
  mk (token self) (auto_browse self) (browse_interval self) (memory self)
     (bot_user_id self) (_ws_connected self) (_reconnect_delay self)
     (_max_reconnect_delay self) (_tasks self) q.

(** A method of [self.memory] called from a method of the adapter. *)
Definition in_memory {A} (m : M ForumMemory.state A) : M state A :=
  zoom (fun s : state => (memory (fst s), snd s))
       (fun ms s => (set_memory (fst s) (fst ms), snd ms)) m.

(** The options of [platform_config] the adapter reads ([None]: the key
    is absent). *)
Record config : Type := mkConfig {
  cfg_token : option pystr;
  cfg_auto_browse : option bool;
  cfg_browse_interval : option Z;
  cfg_max_memory_items : option Z }.

Definition get_or {A} (o : option A) (dflt : A) : A :=
  match o with Some a => a | None => dflt end.

Definition __init__ (platform_config : config) : M world t :=
  let max_memory_items := get_or (cfg_max_memory_items platform_config) 50%Z in
  mem <- ForumMemory.__init__ max_memory_items ;;
  ret (mk (get_or (cfg_token platform_config) (lit ""))
          (get_or (cfg_auto_browse platform_config) true)
          (get_or (cfg_browse_interval platform_config) 3600%Z)
          mem None false 5%Z 60%Z [] []).

Definition create_task (k : task) : M state unit :=
  self <- get_self ;;
  put_self (set_tasks self (_tasks self ++ [k])).

Definition _run : M state run_status :=
  self <- get_self ;;
  match token self with
  | [] =>
      in_world (logger ERROR TokenNotConfigured) ;;
      ret Returned
  | _ :: _ =>
      in_world (logger INFO AdapterStarting) ;;
      create_task WsLoopTask ;;
      (if auto_browse self then create_task AutoBrowseTask else ret tt) ;;
      ret AwaitingGather
  end.

(** The JSON object of a text frame, by the fields the handlers read
    ([None]: the key is absent). *)
Record ws_data : Type := mkData {
  type_ : option pystr;
  user_id : option Z;
  message : option pystr;
  thread_id : option Z;
  thread_title : option pystr;
  from_user_id : option Z;
  from_username : option pystr;
  content : option pystr;
  reply_id : option Z;
  author : option pystr }.

(** What the environment supplies while one frame is handled:
    [datetime.now()], [int(time.time())] and [uuid.uuid4().hex]. *)
Record tick : Type := mkTick {
  now : datetime.t;
  epoch : Z;
  uuid_hex : pystr }.

Definition opt_str_eqb (o : option pystr) (s : pystr) : bool :=
  match o with Some x => str_eqb x s | None => false end.

Definition opt_int (o : option Z) : pyval :=
  match o with Some z => PInt z | None => PNone end.

Definition opt_str (o : option pystr) : pyval :=
  match o with Some s => PStr s | None => PNone end.

(** [str(x)] for an optional [int] *)
Definition str_of_opt_int (o : option Z) : pystr :=
  match o with Some z => str_of_int z | None => lit "None" end.

(** [str(x or s)] for an optional [int] [x] and a string [s] *)
Definition str_or (o : option Z) (s : pystr) : pystr :=
  match o with
  | Some z => if (z =? 0)%Z then s else str_of_int z
  | None => s
  end.

Definition ellipsis : pystr := lit "...".

Definition mention_text (from_username thread_title content : pystr)
  : pystr :=
  lit "被 @" ++ from_username ++ lit " 在《" ++ thread_title
  ++ lit "》中提及: " ++ slice_to content 50 ++ ellipsis.

Definition reply_text (from_username thread_title content : pystr)
  : pystr :=
  from_username ++ lit " 回复了你在《" ++ thread_title
  ++ lit "》中的发言: " ++ slice_to content 50 ++ ellipsis.

Definition notification_metadata (thread_id : option Z)
    (thread_title from_username : pystr) : pydict :=
  [ (lit "thread_id", opt_int thread_id);
    (lit "thread_title", PStr thread_title);
    (lit "from_user", PStr from_username) ].

Definition commit_event (e : event) : M state unit :=
  self <- get_self ;;
  put_self (set_event_queue self (event_queue self ++ [e])).

Definition _handle_notification (data : ws_data) (tk : tick)
  : M state unit :=
  let thread_id := thread_id data in
  let thread_title := get_or (thread_title data) (lit "") in
  let from_user_id := from_user_id data in
  let from_username := get_or (from_username data) (lit "unknown") in
  let content := get_or (content data) (lit "") in
  let reply_id := reply_id data in
  let msg_type := type_ data in
  in_world (logger INFO (Notification msg_type from_username thread_id)) ;;
  (if opt_str_eqb msg_type (lit "mention")
   then
     in_memory (ForumMemory.add_memory (lit "mentioned")
                  (mention_text from_username thread_title content)
                  (Some (notification_metadata thread_id thread_title
                           from_username))
                  (now tk))
   else
     in_memory (ForumMemory.add_memory (lit "replied")
                  (reply_text from_username thread_title content)
                  (Some (notification_metadata thread_id thread_title
                           from_username))
                  (now tk))) ;;
  self <- get_self ;;
  let session_id :=
    lit "astrbook_" ++ str_of_opt_int thread_id ++ lit "_"
    ++ str_of_opt_int from_user_id in
  commit_event
    (mkEvent content
       (str_or (bot_user_id self) (lit "astrbook"))
       (str_of_opt_int from_user_id) from_username
       session_id
       (str_or reply_id (uuid_hex tk))
       (epoch tk) thread_id reply_id
       [ (lit "thread_id", opt_int thread_id);
         (lit "thread_title", PStr thread_title);
         (lit "reply_id", opt_int reply_id);
         (lit "notification_type", opt_str msg_type) ]
       true true).

Definition _handle_new_thread (data : ws_data) (tk : tick)
  : M state unit :=
  let thread_id := thread_id data in
  let thread_title := get_or (thread_title data) (lit "") in
  let author := get_or (author data) (lit "unknown") in
  in_world (logger DEBUG (NewThread thread_title author)) ;;
  in_memory (ForumMemory.add_memory (lit "new_thread")
               (lit "有新帖发布：《" ++ thread_title ++ lit "》by " ++ author)
               (Some [ (lit "thread_id", opt_int thread_id);
                       (lit "thread_title", PStr thread_title);
                       (lit "author", PStr author) ])
               (now tk)).

Definition _handle_ws_message (data : ws_data) (tk : tick)
  : M state unit :=
  let msg_type := type_ data in
  in_world (logger DEBUG (WsReceived msg_type)) ;;
  if opt_str_eqb msg_type (lit "connected") then
    self <- get_self ;;
    put_self (set_bot_user_id self (user_id data)) ;;
    in_world (logger INFO (ConnectedAs (user_id data)))
  else if opt_str_eqb msg_type (lit "pong") then ret tt
  else if opt_str_eqb msg_type (lit "reply")
          || opt_str_eqb msg_type (lit "sub_reply")
          || opt_str_eqb msg_type (lit "mention")
  then _handle_notification data tk
  else if opt_str_eqb msg_type (lit "new_thread")
  then _handle_new_thread data tk
  else ret tt.

(** A message drawn from the socket.  [MsgTEXT None] is a text frame
    whose payload [msg.json()] cannot decode. *)
Inductive ws_msg : Type :=
  | MsgTEXT (payload : option ws_data)
  | MsgBINARY
  | MsgERROR
  | MsgCLOSED.

(** One connection attempt as the environment decides it: the exception
    [session.ws_connect] raises, if any, and otherwise the messages the
    socket delivers until the stream is exhausted. *)
Record attempt : Type := mkAttempt {
  handshake : option exn;
  frames : list (ws_msg * tick) }.

(** The [async for msg in ws] loop of [_ws_connect]. *)
Fixpoint receive (fs : list (ws_msg * tick)) : M state unit :=
  match fs with
  | [] => ret tt
  | (MsgTEXT payload, tk) :: r =>
      data <- match payload with
              | Some d => ret d
              | None => raise JSONDecodeError
              end ;;
      _handle_ws_message data tk ;;
      receive r
  | (MsgERROR, _) :: _ => in_world (logger ERROR WsErrorFrame)
  | (MsgCLOSED, _) :: _ => in_world (logger INFO WsClosedByServer)
  | (MsgBINARY, _) :: r => receive r
  end.

Definition _ws_connect (a : attempt) : M state unit :=
  in_world (logger INFO WsConnecting) ;;
  match handshake a with
  | Some e => raise e
  | None =>
      self <- get_self ;;
      put_self (set_ws_connected self true) ;;
      in_world (logger INFO WsConnected) ;;
      try_finally (receive (frames a))
        (self <- get_self ;; put_self (set_ws_connected self false))
  end.

(** One turn of the [while True] loop of [_ws_loop]; the value is the
    local [reconnect_delay] at the end of the turn. *)
Definition _ws_loop_turn (a : attempt) (reconnect_delay : Z) : M state Z :=
  reconnect_delay <-
    try_except
      (_ws_connect a ;;
       self <- get_self ;;
       ret (_reconnect_delay self))
      (fun e =>
         in_world (logger ERROR
                     (match e with
                      | ClientError => WsConnectionError e
                      | _ => WsUnexpectedError e
                      end)) ;;
         ret reconnect_delay) ;;
  in_world (logger INFO (WsReconnecting reconnect_delay)) ;;
  in_world (sleep reconnect_delay) ;;
  self <- get_self ;;
  ret (Z.min (reconnect_delay * 2) (_max_reconnect_delay self)).

Fixpoint _ws_loop_from (atts : list attempt) (reconnect_delay : Z)
  : M state Z :=
  match atts with
  | [] => ret reconnect_delay
  | a :: r =>
      reconnect_delay <- _ws_loop_turn a reconnect_delay ;;
      _ws_loop_from r reconnect_delay
  end.

(** [_ws_loop] never returns; this is the loop run over the connection
    attempts [atts], one per turn. *)
Definition _ws_loop (atts : list attempt) : M state Z :=
  self <- get_self ;;
  _ws_loop_from atts (_reconnect_delay self).

Definition get_memory (self : t) : ForumMemory.t := memory self.

Definition get_memory_summary (limit : Z) (self : t) : pystr :=
  ForumMemory.get_summary limit (memory self).

(** *** Auto browse *)

Definition _format_browse_content : pystr :=
  join newline
    [ lit "[论坛逛帖时间]";
      lit "";
      lit "你正在 AstrBook 论坛闲逛。";
      lit "这是一个专为 AI Agent 打造的社区论坛，这里的用户都是 AI，大家在这里交流、分享、互动。";
      lit "";
      lit "请自由浏览论坛，阅读感兴趣的帖子，参与你想参与的讨论。";
      lit "";
      lit "💡 重要：逛完后，请调用 save_forum_diary() 写下你的逛帖日记。";
      lit "这份日记会被保存，让你在其他地方聊天时能回忆起今天的论坛经历。";
      lit "";
      lit "日记可以包括：";
      lit "- 今天看到了什么有趣的帖子？";
      lit "- 和谁互动了？聊了什么？";
      lit "- 有什么新的想法或发现？";
      lit "- 你对论坛社区的印象如何？" ].

Inductive browse_msg : Type :=
  | BrowseStarting
  | BrowseCommitted
  | BrowseError (e : exn).

(** The adapter and the world, with the log lines of the browse task. *)
Definition browse_state : Type := (state * list (level * browse_msg))%type.

Definition in_adapter {A} (m : M state A) : M browse_state A :=
  zoom fst (fun s b => (s, snd b)) m.

Definition browse_logger (l : level) (m : browse_msg) : M browse_state unit :=
  fun b => (inr tt, (fst b, snd b ++ [(l, m)])).

(** One browse cycle as the environment decides it: the clock reading and
    the uuid it meets, and the exception [commit_event] raises on the host
    queue, if any. *)
Record cycle : Type := mkCycle {
  cycle_tick : tick;
  cycle_fault : option exn }.

Definition _do_browse (c : cycle) : M browse_state unit :=
  browse_logger INFO BrowseStarting ;;
  let browse_content := _format_browse_content in
  self <- in_adapter get_self ;;
  let ev :=
    mkEvent browse_content
      (str_or (bot_user_id self) (lit "astrbook"))
      (lit "system") (lit "AstrBook System")
      (lit "astrbook_browse_system")
      (lit "browse_" ++ uuid_hex (cycle_tick c))
      (epoch (cycle_tick c)) None None
      [ (lit "is_browse_event", PBool true) ]
      true true in
  match cycle_fault c with
  | Some e => raise e
  | None => in_adapter (commit_event ev)
  end ;;
  browse_logger INFO BrowseCommitted.

(** One turn of the [while True] loop of [_auto_browse_loop]. *)
Definition _auto_browse_turn (c : cycle) : M browse_state unit :=
  try_except (_do_browse c)
    (fun e => browse_logger ERROR (BrowseError e)) ;;
  self <- in_adapter get_self ;;
  in_adapter (in_world (sleep (browse_interval self))).

Fixpoint _auto_browse_turns (cs : list cycle) : M browse_state unit :=
  match cs with
  | [] => ret tt
  | c :: r => _auto_browse_turn c ;; _auto_browse_turns r
  end.

(** [_auto_browse_loop] never returns; this is the loop run over the
    cycles [cs]. *)
Definition _auto_browse_loop (cs : list cycle) : M browse_state unit :=
  in_adapter (in_world (sleep 60)) ;;
  _auto_browse_turns cs.

End AstrBookAdapter.

(* ================================================================== *)
(** * Vocabulary of the statements *)

(** ** The log *)

(** The last [k] elements of a list. *)
Definition last_n {A} (k : nat) (l : list A) : list A :=
  skipn (length l - k) l.

(** What [add_memory] does to a log once the item is appended: nothing
    while the bound is respected, the slice [[-max_items:]] beyond it. *)
Definition keep (max_items : Z) (l : list MemoryItem.t) : list MemoryItem.t :=
  if (Z.of_nat (length l) >? max_items)%Z
  then slice_from l (- max_items) else l.

Definition appended (self : ForumMemory.t) (item : MemoryItem.t)
  : list MemoryItem.t :=
  keep (ForumMemory._max_items self) (ForumMemory._memories self ++ [item]).

(** One call of [add_memory], with the clock reading it meets. *)
Record call : Type := mkCall {
  call_type : pystr;
  call_content : pystr;
  call_metadata : option pydict;
  call_now : datetime.t }.

Definition item_of (c : call) : MemoryItem.t :=
  MemoryItem.mk (call_type c) (call_content c) (call_now c)
    (ForumMemory.or_empty (call_metadata c)).

(** A sequence of [add_memory] calls on the same store. *)
Fixpoint add_all (cs : list call) : M ForumMemory.state unit :=
  match cs with
  | [] => ret tt
  | c :: r =>
      ForumMemory.add_memory (call_type c) (call_content c)
        (call_metadata c) (call_now c) ;;
      add_all r
  end.

(** The log a state holds. *)
Definition log_of (r : (exn + unit) * ForumMemory.state) : list MemoryItem.t :=
  ForumMemory._memories (fst (snd r)).

(** ** Rendered text *)

(** Number of line breaks in a text. *)
Definition breaks (s : pystr) : nat :=
  length (filter (fun c => (c =? 10)%N) s).

(** ** JSON *)

(** The inner loops of [json_encode] and [json_decode], by name. *)
Fixpoint encode_list (l : list pyval) : exn + list json :=
  match l with
  | [] => inr []
  | x :: r =>
      match json_encode x with
      | inl e => inl e
      | inr j =>
          match encode_list r with
          | inl e => inl e
          | inr js => inr (j :: js)
          end
      end
  end.

Fixpoint encode_pairs (d : pydict) : exn + list (pystr * json) :=
  match d with
  | [] => inr []
  | (k, x) :: r =>
      if utf8_encodable k then
        match json_encode x with
        | inl e => inl e
        | inr j =>
            match encode_pairs r with
            | inl e => inl e
            | inr js => inr ((k, j) :: js)
            end
        end
      else inl UnicodeEncodeError
  end.

Fixpoint decode_pairs (l : list (pystr * json)) (acc : pydict) : pydict :=
  match l with
  | [] => acc
  | (k, x) :: r => decode_pairs r (dict_set acc k (json_decode x))
  end.

(** A value that [json.load] gives back after [json.dump]. *)
Definition round_trips (v : pyval) : Prop :=
  well_formed v = true -> json_native v = true ->
  exists j, json_encode v = inr j /\ json_decode j = v.

(** Induction on Python values, with the elements of lists, tuples and
    dicts covered. *)
Section PyvalInduction.

Variable P : pyval -> Prop.
Hypothesis HNone : P PNone.
Hypothesis HBool : forall b, P (PBool b).
Hypothesis HInt : forall z, P (PInt z).
Hypothesis HStr : forall s, P (PStr s).
Hypothesis HList : forall l, Forall P l -> P (PList l).
Hypothesis HTuple : forall l, Forall P l -> P (PTuple l).
Hypothesis HDict : forall d, Forall (fun kv => P (snd kv)) d -> P (PDict d).
Hypothesis HBytes : forall b, P (PBytes b).

Fixpoint pyval_nested_ind (v : pyval) : P v :=
  match v with
  | PNone => HNone
  | PBool b => HBool b
  | PInt z => HInt z
  | PStr s => HStr s
  | PList l =>
      HList l ((fix all (l : list pyval) : Forall P l :=
                match l with
                | [] => Forall_nil _
                | x :: r => Forall_cons x (pyval_nested_ind x) (all r)
                end) l)
  | PTuple l =>
      HTuple l ((fix all (l : list pyval) : Forall P l :=
                 match l with
                 | [] => Forall_nil _
                 | x :: r => Forall_cons x (pyval_nested_ind x) (all r)
                 end) l)
  | PDict d =>
      HDict d ((fix all (d : pydict) : Forall (fun kv => P (snd kv)) d :=
                match d with
                | [] => Forall_nil _
                | kv :: r =>
                    Forall_cons kv (pyval_nested_ind (snd kv)) (all r)
                end) d)
  | PBytes b => HBytes b
  end.

End PyvalInduction.

(** ** Persistence *)

(** The invariants of the Python objects an item holds: a timestamp within
    the ranges of [datetime], a metadata dict with distinct keys. *)
Definition item_valid (m : MemoryItem.t) : bool :=
  datetime.valid (MemoryItem.timestamp m)
  && well_formed (PDict (MemoryItem.metadata m)).

(** The strings of the item hold no lone surrogate and its metadata is
    made of values a JSON file gives back unchanged. *)
Definition item_json (m : MemoryItem.t) : bool :=
  utf8_encodable (MemoryItem.memory_type m)
  && utf8_encodable (MemoryItem.content m)
  && json_native (PDict (MemoryItem.metadata m)).

(** Persist the log of [self], then build a new store from the disk: the
    log the new store holds, or the exception its constructor raises. *)
Definition reload (self : ForumMemory.t) (w : world)
  : exn + list MemoryItem.t :=
  match ForumMemory._save (self, w) with
  | (_, (_, w1)) =>
      match ForumMemory.__init__ (ForumMemory._max_items self) w1 with
      | (inr fresh, _) => inr (ForumMemory._memories fresh)
      | (inl e, _) => inl e
      end
  end.


(** ** Notifications and reconnection *)

(** The item [_handle_notification] hands to the store. *)
Definition notification_item (data : AstrBookAdapter.ws_data)
    (tk : AstrBookAdapter.tick) : MemoryItem.t :=
  let user :=
    AstrBookAdapter.get_or (AstrBookAdapter.from_username data) (lit "unknown") in
  let title :=
    AstrBookAdapter.get_or (AstrBookAdapter.thread_title data) (lit "") in
  let text :=
    AstrBookAdapter.get_or (AstrBookAdapter.content data) (lit "") in
  let md :=
    AstrBookAdapter.notification_metadata (AstrBookAdapter.thread_id data)
      title user in
  if AstrBookAdapter.opt_str_eqb (AstrBookAdapter.type_ data) (lit "mention")
  then MemoryItem.mk (lit "mentioned")
         (AstrBookAdapter.mention_text user title text)
         (AstrBookAdapter.now tk) md
  else MemoryItem.mk (lit "replied")
         (AstrBookAdapter.reply_text user title text)
         (AstrBookAdapter.now tk) md.

(** The adapter after a notification: the item in the store, the event in
    the queue. *)
Definition notified (self : AstrBookAdapter.t) (item : MemoryItem.t)
    (ev : AstrBookAdapter.event) : AstrBookAdapter.t :=
  AstrBookAdapter.set_event_queue
    (AstrBookAdapter.set_memory self
       (ForumMemory.set_memories (AstrBookAdapter.memory self)
          (appended (AstrBookAdapter.memory self) item)))
    (AstrBookAdapter.event_queue self ++ [ev]).

(** The delays of [n] consecutive waits that start at [d] and double up
    to [cap]. *)
Fixpoint backoff (cap d : Z) (n : nat) : list Z :=
  match n with
  | O => []
  | S n' => d :: backoff cap (Z.min (d * 2) cap) n'
  end.

(** Whether the receive loop over these messages is left by an exception:
    a text frame that cannot be decoded is met before the stream ends. *)
Fixpoint stream_raises (fs : list (AstrBookAdapter.ws_msg * AstrBookAdapter.tick))
  : bool :=
  match fs with
  | [] => false
  | (AstrBookAdapter.MsgTEXT None, _) :: _ => true
  | (AstrBookAdapter.MsgTEXT (Some _), _) :: r => stream_raises r
  | (AstrBookAdapter.MsgBINARY, _) :: r => stream_raises r
  | (AstrBookAdapter.MsgERROR, _) :: _ => false
  | (AstrBookAdapter.MsgCLOSED, _) :: _ => false
  end.

(** The waits of a run of [_ws_loop]. *)
Definition waits (r : (exn + Z) * AstrBookAdapter.state) : list Z :=
  slept (snd (snd r)).

(** The reconnection settings and the waits so far are those of [s]. *)
Definition same_timing (s s' : AstrBookAdapter.state) : Prop :=
  AstrBookAdapter._reconnect_delay (fst s')
  = AstrBookAdapter._reconnect_delay (fst s)
  /\ AstrBookAdapter._max_reconnect_delay (fst s')
     = AstrBookAdapter._max_reconnect_delay (fst s)
  /\ slept (snd s') = slept (snd s).

(** ** Events and frames *)

(** The event [_handle_notification] commits. *)
Definition notification_event (data : AstrBookAdapter.ws_data)
    (tk : AstrBookAdapter.tick) (self : AstrBookAdapter.t)
  : AstrBookAdapter.event :=
  let thread_id := AstrBookAdapter.thread_id data in
  let from_user_id := AstrBookAdapter.from_user_id data in
  let reply_id := AstrBookAdapter.reply_id data in
  let title :=
    AstrBookAdapter.get_or (AstrBookAdapter.thread_title data) (lit "") in
  AstrBookAdapter.mkEvent
    (AstrBookAdapter.get_or (AstrBookAdapter.content data) (lit ""))
    (AstrBookAdapter.str_or (AstrBookAdapter.bot_user_id self)
       (lit "astrbook"))
    (AstrBookAdapter.str_of_opt_int from_user_id)
    (AstrBookAdapter.get_or (AstrBookAdapter.from_username data)
       (lit "unknown"))
    (lit "astrbook_" ++ AstrBookAdapter.str_of_opt_int thread_id ++ lit "_"
     ++ AstrBookAdapter.str_of_opt_int from_user_id)
    (AstrBookAdapter.str_or reply_id (AstrBookAdapter.uuid_hex tk))
    (AstrBookAdapter.epoch tk) thread_id reply_id
    [ (lit "thread_id", AstrBookAdapter.opt_int thread_id);
      (lit "thread_title", PStr title);
      (lit "reply_id", AstrBookAdapter.opt_int reply_id);
      (lit "notification_type",
       AstrBookAdapter.opt_str (AstrBookAdapter.type_ data)) ]
    true true.

(** The frame is a notification: its type is [reply], [sub_reply] or
    [mention]. *)
Definition notifies (data : AstrBookAdapter.ws_data) : bool :=
  AstrBookAdapter.opt_str_eqb (AstrBookAdapter.type_ data) (lit "reply")
  || AstrBookAdapter.opt_str_eqb (AstrBookAdapter.type_ data) (lit "sub_reply")
  || AstrBookAdapter.opt_str_eqb (AstrBookAdapter.type_ data) (lit "mention").

(** The type of the frame is one the dispatch acts on. *)
Definition recognised (data : AstrBookAdapter.ws_data) : bool :=
  AstrBookAdapter.opt_str_eqb (AstrBookAdapter.type_ data) (lit "connected")
  || notifies data
  || AstrBookAdapter.opt_str_eqb (AstrBookAdapter.type_ data)
       (lit "new_thread").



(** The events in the queue of a browse state, and its store. *)
Definition events_of (b : AstrBookAdapter.browse_state)
  : list AstrBookAdapter.event :=
  AstrBookAdapter.event_queue (fst (fst b)).

(** The cycles that commit their event. *)
Definition committed (cs : list AstrBookAdapter.cycle)
  : list AstrBookAdapter.cycle :=
  filter (fun c => match AstrBookAdapter.cycle_fault c with
                   | None => true
                   | Some _ => false
                   end) cs.

(** The event [_do_browse] commits in cycle [c]. *)
Definition browse_event (c : AstrBookAdapter.cycle) (self : AstrBookAdapter.t)
  : AstrBookAdapter.event :=
  AstrBookAdapter.mkEvent AstrBookAdapter._format_browse_content
    (AstrBookAdapter.str_or (AstrBookAdapter.bot_user_id self)
       (lit "astrbook"))
    (lit "system") (lit "AstrBook System")
    (lit "astrbook_browse_system")
    (lit "browse_"
     ++ AstrBookAdapter.uuid_hex (AstrBookAdapter.cycle_tick c))
    (AstrBookAdapter.epoch (AstrBookAdapter.cycle_tick c)) None None
    [ (lit "is_browse_event", PBool true) ]
    true true.

(** The events the cycles [cs] commit for the adapter [self]. *)
Definition browse_events (cs : list AstrBookAdapter.cycle)
    (self : AstrBookAdapter.t) : list AstrBookAdapter.event :=
  map (fun c => browse_event c self) (committed cs).


(** ** Sample data *)

(** A world with no file, no pending fault and empty logs. *)
Definition quiet_world : world := mkWorld None [] [] [].

(** 7 March 2024, 09:[n]. *)
Definition at_minute (n : N) : datetime.t := datetime.mk 2024 3 7 9 n 0 0.

(** Three appends. *)
Definition three_calls : list call :=
  [ mkCall (lit "browsed") (lit "read a thread") None (at_minute 1);
    mkCall (lit "mentioned") (lit "X") (Some []) (at_minute 2);
    mkCall (lit "diary") (lit "quiet day") None (at_minute 3) ].

(** A log of one item whose metadata holds a tuple. *)
Definition tagged_item : MemoryItem.t :=
  MemoryItem.mk (lit "diary") (lit "quiet day") (at_minute 30)
    [ (lit "tags", PTuple [PStr (lit "a"); PStr (lit "b")]) ].

Definition tagged_store : ForumMemory.t := ForumMemory.mk 50 [tagged_item].

(** A log of one item whose content holds a lone surrogate, as
    [json.loads] builds it from the escape [\ud800] of an inbound frame. *)
Definition surrogate_store : ForumMemory.t :=
  ForumMemory.mk 50
    [ MemoryItem.mk (lit "replied") (lit "bob: " ++ [55296%N]) (at_minute 31)
        [] ].

(** The same item with the tuple turned into a list. *)
Definition tagged_item_reloaded : MemoryItem.t :=
  MemoryItem.mk (lit "diary") (lit "quiet day") (at_minute 30)
    [ (lit "tags", PList [PStr (lit "a"); PStr (lit "b")]) ].

(** An item about thread [tid], and an item about no thread. *)
Definition about (tid : Z) (n : N) : MemoryItem.t :=
  MemoryItem.mk (lit "replied") (lit "reply") (at_minute n)
    [ (lit "thread_id", PInt tid); (lit "thread_title", PStr (lit "T")) ].

Definition unrelated (n : N) : MemoryItem.t :=
  MemoryItem.mk (lit "diary") (lit "note") (at_minute n) [].

(** Ten items, seven of them about thread 42. *)
Definition ten_items : list MemoryItem.t :=
  [ about 42 1; unrelated 2; about 42 3; about 42 4; about 7 5;
    about 42 6; about 42 7; unrelated 8; about 42 9; about 42 10 ].

Definition ten_store : ForumMemory.t := ForumMemory.mk 50 ten_items.

(** A mention whose text has 60 characters, and a reply of 5. *)
Definition sixty : pystr := repeat 97%N 60.

Definition sample_tick : AstrBookAdapter.tick :=
  AstrBookAdapter.mkTick (at_minute 15) 1709802900 (lit "7f3a").

Definition long_mention : AstrBookAdapter.ws_data :=
  AstrBookAdapter.mkData (Some (lit "mention")) None None (Some 42%Z)
    (Some (lit "Hello")) (Some 7%Z) (Some (lit "bob")) (Some sixty)
    (Some 311%Z) None.

Definition short_reply : AstrBookAdapter.ws_data :=
  AstrBookAdapter.mkData (Some (lit "reply")) None None (Some 42%Z)
    (Some (lit "Hello")) (Some 7%Z) (Some (lit "bob")) (Some (lit "hello"))
    None None.

Definition fresh_adapter : AstrBookAdapter.t :=
  AstrBookAdapter.mk (lit "secret") true 3600 (ForumMemory.mk 50 []) None
    false 5 60 [] [].

(** A refused connection; a connection the server closes after a reply; a
    connection that ends on an error frame; a connection on which a text
    frame that is not JSON arrives after a reply. *)
Definition refused : AstrBookAdapter.attempt :=
  AstrBookAdapter.mkAttempt (Some ClientError) [].

Definition closed_by_server : AstrBookAdapter.attempt :=
  AstrBookAdapter.mkAttempt None
    [ (AstrBookAdapter.MsgTEXT (Some short_reply), sample_tick);
      (AstrBookAdapter.MsgCLOSED, sample_tick) ].

Definition ended_by_error_frame : AstrBookAdapter.attempt :=
  AstrBookAdapter.mkAttempt None
    [ (AstrBookAdapter.MsgTEXT (Some short_reply), sample_tick);
      (AstrBookAdapter.MsgERROR, sample_tick) ].

Definition garbled : AstrBookAdapter.attempt :=
  AstrBookAdapter.mkAttempt None
    [ (AstrBookAdapter.MsgTEXT (Some short_reply), sample_tick);
      (AstrBookAdapter.MsgTEXT None, sample_tick) ].


Definition entry_without_content : json :=
  JObj [ (lit "memory_type", JStr (lit "diary"));
         (lit "timestamp", JStr (lit "2024-03-07T09:03:00")) ].



(* ================================================================== *)
(** * Properties *)

(** ** The model on small inputs *)

Example lit_counts_characters : length (lit "被 @bob") = 6%nat.
Proof. vm_compute. reflexivity. Qed.

Example lit_code_points : lit "《A》" = [12298; 65; 12299]%N.
Proof. vm_compute. reflexivity. Qed.

Example slice_last_two : slice_from [1; 2; 3; 4; 5] (-2) = [4; 5].
Proof. vm_compute. reflexivity. Qed.

Example slice_minus_zero : slice_from [1; 2; 3; 4; 5] (- 0) = [1; 2; 3; 4; 5].
Proof. vm_compute. reflexivity. Qed.

Example slice_beyond_the_end : slice_to [1; 2; 3] 50 = [1; 2; 3].
Proof. vm_compute. reflexivity. Qed.

Example slice_negative_stop : slice_to [1; 2; 3; 4; 5] (-2) = [1; 2; 3].
Proof. vm_compute. reflexivity. Qed.

Example str_of_negative : str_of_int (-42) = lit "-42".
Proof. vm_compute. reflexivity. Qed.

Example isoformat_whole_second :
  datetime.isoformat (datetime.mk 2024 3 7 9 5 0 0)
  = lit "2024-03-07T09:05:00".
Proof. vm_compute. reflexivity. Qed.

Example isoformat_microseconds :
  datetime.isoformat (datetime.mk 2024 3 7 9 5 0 1500)
  = lit "2024-03-07T09:05:00.001500".
Proof. vm_compute. reflexivity. Qed.

Example fromisoformat_rejects_february_30 :
  datetime.fromisoformat (lit "2023-02-30T09:05:00") = inl ValueError.
Proof. vm_compute. reflexivity. Qed.

Example strftime_pads :
  datetime.strftime_md_HM (datetime.mk 2024 3 7 9 5 0 0) = lit "03-07 09:05".
Proof. vm_compute. reflexivity. Qed.

Example dict_set_keeps_position :
  dict_set [(lit "a", 1); (lit "b", 2)] (lit "a") 3
  = [(lit "a", 3); (lit "b", 2)].
Proof. vm_compute. reflexivity. Qed.

Example json_writes_tuple_as_array :
  json_encode (PTuple [PInt 1; PNone]) = inr (JArr [JNum 1; JNull]).
Proof. vm_compute. reflexivity. Qed.

Example json_refuses_bytes :
  json_encode (PDict [(lit "raw", PBytes [0%N])]) = inl TypeError.
Proof. vm_compute. reflexivity. Qed.

Example summary_of_two :
  ForumMemory.get_summary 10
    (ForumMemory.mk 50
       [ MemoryItem.mk (lit "browsed") (lit "first") (at_minute 1) [];
         MemoryItem.mk (lit "other") (lit "second") (at_minute 2) [] ])
  = join newline
      [ lit "我最近在 AstrBook 论坛的活动：";
        lit "  📌 [03-07 09:02] second";
        lit "  👀 [03-07 09:01] first" ].
Proof. vm_compute. reflexivity. Qed.

Example summary_of_nothing :
  ForumMemory.get_summary 10 (ForumMemory.mk 50 [])
  = lit "最近没有论坛活动记录。".
Proof. vm_compute. reflexivity. Qed.

Example context_of_thread :
  ForumMemory.get_context_for_thread 7 ten_store
  = join newline [lit "与帖子 #7 相关的活动："; lit "  - [03-07 09:05] reply"].
Proof. vm_compute. reflexivity. Qed.

Example negative_bound_drops_the_new_item :
  log_of (add_all three_calls (ForumMemory.mk (-5) [], quiet_world)) = [].
Proof. vm_compute. reflexivity. Qed.

(** ** Slices *)

Section Slices.

Context {A : Type}.
Implicit Types l r : list A.

(** [l[-k:]] for [k >= 1] keeps the last [k] elements. *)
Lemma slice_from_neg l (k : Z) :
  (0 < k)%Z ->
  slice_from l (- k) = skipn (length l - Z.to_nat k) l.
Proof.
  intros Hk. unfold slice_from, clamp_index.
  destruct (Z.ltb_spec (- k) 0); [|lia].
  f_equal. lia.
Qed.

(** [l[-0:]] is the whole list. *)
Lemma slice_from_zero l : slice_from l (- 0) = l.
Proof. reflexivity. Qed.

(** [l[:k]] for [0 <= k] keeps the first [k] elements. *)
Lemma slice_to_nonneg l (k : Z) :
  (0 <= k)%Z -> slice_to l k = firstn (Z.to_nat k) l.
Proof.
  intros Hk. unfold slice_to, clamp_index.
  destruct (Z.ltb_spec k 0); [lia|].
  destruct (Nat.le_gt_cases (Z.to_nat k) (length l)).
  - now rewrite Nat.min_l.
  - rewrite Nat.min_r by lia.
    now rewrite !firstn_all2 by lia.
Qed.

Lemma slice_to_short l (k : Z) :
  (Z.of_nat (length l) <= k)%Z -> slice_to l k = l.
Proof.
  intros Hk. rewrite slice_to_nonneg by lia. apply firstn_all2. lia.
Qed.

Lemma skipn_last_app l r (k : nat) :
  (k <= length l)%nat ->
  skipn (k + length r) (l ++ r) = skipn (length r) (skipn k l ++ r).
Proof.
  intros Hk.
  rewrite Nat.add_comm, <- skipn_skipn.
  f_equal. rewrite skipn_app.
  replace (k - length l)%nat with 0%nat by lia. reflexivity.
Qed.

End Slices.

(** ** [str_eqb] decides equality *)

Lemma str_eqb_eq (a b : pystr) : str_eqb a b = true <-> a = b.
Proof.
  revert b. induction a as [|x a IH]; intros [|y b]; simpl;
    try (split; [discriminate|discriminate]); try tauto.
  rewrite andb_true_iff, N.eqb_eq, IH.
  split; [intros [-> ->]; reflexivity | intros [= -> ->]; auto].
Qed.

Lemma str_eqb_refl (a : pystr) : str_eqb a a = true.
Proof. now apply str_eqb_eq. Qed.

Lemma str_eqb_neq (a b : pystr) : str_eqb a b = false <-> a <> b.
Proof.
  rewrite <- str_eqb_eq. destruct (str_eqb a b); split; congruence.
Qed.

(** ** Running computations *)

Lemma in_world_run {O A} (m : M world A) (o : O) (w : world) :
  in_world m (o, w) = (fst (m w), (o, snd (m w))).
Proof. unfold in_world, zoom. simpl. destruct (m w); reflexivity. Qed.

Lemma logger_run (l : level) (m : log_msg) (w : world) :
  logger l m w
  = (inr tt, mkWorld (disk w) (faults w) (logs w ++ [(l, m)]) (slept w)).
Proof. reflexivity. Qed.

(** ** The memory store: what each operation does to the log *)

Section Store.

Import ForumMemory.

Lemma io_op_slept w : slept (snd (io_op w)) = slept w.
Proof. unfold io_op. destruct (faults w) as [|[|] fs]; reflexivity. Qed.

Lemma open_write_slept w : slept (snd (open_write w)) = slept w.
Proof.
  unfold open_write, bind. pose proof (io_op_slept w) as H.
  destruct (io_op w) as [[e|[]] w1]; simpl in *; exact H.
Qed.

Lemma json_dump_slept data w : slept (snd (json_dump data w)) = slept w.
Proof.
  unfold json_dump, bind, lift.
  destruct (json_encode data) as [e|j]; [reflexivity|]. unfold ret.
  pose proof (io_op_slept w) as H.
  destruct (io_op w) as [[e|[]] w1]; simpl in *; exact H.
Qed.

Lemma _save_returns (self : t) (w : world) :
  exists w', _save (self, w) = (inr tt, (self, w')) /\ slept w' = slept w.
Proof.
  unfold _save, try_except, bind, get_self; simpl.
  rewrite in_world_run.
  pose proof (open_write_slept w) as H1.
  destruct (open_write w) as [[e|[]] w1]; simpl in *.
  - rewrite in_world_run. simpl. eauto.
  - rewrite in_world_run.
    pose proof (json_dump_slept
                  (PList (map MemoryItem.to_dict (_memories self))) w1) as H2.
    destruct (json_dump _ w1) as [[e|[]] w2]; simpl in *.
    + rewrite in_world_run. simpl. eexists. split; [reflexivity|].
      simpl. congruence.
    + eexists. split; [reflexivity|]. congruence.
Qed.

Lemma add_memory_returns memory_type content metadata now self w :
  exists w',
    add_memory memory_type content metadata now (self, w)
    = (inr tt,
       (set_memories self
          (appended self
             (MemoryItem.mk memory_type content now (or_empty metadata))),
        w'))
    /\ slept w' = slept w.
Proof.
  unfold add_memory, appended, keep.
  set (item := MemoryItem.mk _ _ _ _).
  unfold bind at 1. unfold get_self at 1. simpl.
  unfold bind at 1. unfold put_self at 1. simpl.
  unfold bind at 1. unfold get_self at 1. simpl.
  unfold bind at 1.
  destruct (Z.of_nat (length (_memories self ++ [item])) >? _max_items self)%Z;
    simpl; unfold bind at 1;
    match goal with |- context [_save (?s, w)] =>
      destruct (_save_returns s w) as (w1 & -> & Hs) end;
    rewrite in_world_run; simpl; eauto.
Qed.

Lemma clear_returns self w :
  exists w',
    clear (self, w) = (inr tt, (set_memories self [], w'))
    /\ slept w' = slept w.
Proof.
  unfold clear.
  unfold bind at 1. unfold get_self at 1. simpl.
  unfold bind at 1. unfold put_self at 1. simpl.
  unfold bind at 1.
  destruct (_save_returns (set_memories self []) w) as (w1 & -> & Hs).
  rewrite in_world_run; simpl; eauto.
Qed.

Lemma add_all_returns cs : forall self w,
  exists w',
    add_all cs (self, w)
    = (inr tt,
       (set_memories self
          (fold_left (fun l c => keep (_max_items self) (l ++ [item_of c]))
             cs (_memories self)),
        w')).
Proof.
  induction cs as [|c cs IH]; intros self w; simpl.
  - exists w. destruct self; reflexivity.
  - unfold bind.
    destruct (add_memory_returns (call_type c) (call_content c)
                (call_metadata c) (call_now c) self w) as (w1 & -> & _).
    destruct (IH (set_memories self
                    (appended self
                       (MemoryItem.mk (call_type c) (call_content c)
                          (call_now c) (or_empty (call_metadata c))))) w1)
      as [w2 ->].
    exists w2. reflexivity.
Qed.

(** *** With a bound of at least one *)

Lemma keep_pos (k : Z) l :
  (0 < k)%Z -> keep k l = last_n (Z.to_nat k) l.
Proof.
  intros Hk. unfold keep, last_n.
  destruct (Z.gtb_spec (Z.of_nat (length l)) k).
  - now apply slice_from_neg.
  - replace (length l - Z.to_nat k)%nat with 0%nat by lia. reflexivity.
Qed.

Lemma last_n_idem_app {A} (k : nat) (l r : list A) :
  last_n k (last_n k l ++ r) = last_n k (l ++ r).
Proof.
  unfold last_n.
  destruct (Nat.le_gt_cases (length l) k) as [Hle|Hgt].
  - replace (length l - k)%nat with 0%nat by lia. reflexivity.
  - rewrite !length_app, length_skipn.
    replace (length l - (length l - k) + length r - k)%nat
      with (length r) by lia.
    replace (length l + length r - k)%nat
      with ((length l - k) + length r)%nat by lia.
    symmetry. apply skipn_last_app. lia.
Qed.

Lemma last_n_length {A} (k : nat) (l : list A) :
  (k <= length l)%nat -> length (last_n k l) = k.
Proof. intros H. unfold last_n. rewrite length_skipn. lia. Qed.

Lemma last_n_app_long {A} (k : nat) (l r : list A) :
  (k <= length r)%nat -> last_n k (l ++ r) = last_n k r.
Proof.
  intros H. unfold last_n. rewrite length_app, skipn_app.
  rewrite skipn_all2 by lia. simpl. f_equal. lia.
Qed.

Lemma fold_keep_pos (k : Z) cs : forall l,
  (0 < k)%Z -> cs <> [] ->
  fold_left (fun l c => keep k (l ++ [item_of c])) cs l
  = last_n (Z.to_nat k) (l ++ map item_of cs).
Proof.
  induction cs as [|c cs IH]; intros l Hk Hne; [congruence|].
  simpl. destruct cs as [|c' cs].
  - simpl. now apply keep_pos.
  - rewrite IH by (auto; discriminate).
    rewrite keep_pos by assumption.
    rewrite last_n_idem_app, <- app_assoc. reflexivity.
Qed.

(** FIFO eviction for every bound [max_items >= 1]: after at least
    [max_items] appends, whatever the log held before and whatever
    happens to the disk, the log is the last [max_items] appended
    items, oldest first. *)
Lemma add_all_fifo cs self w :
  (0 < _max_items self)%Z ->
  (Z.to_nat (_max_items self) <= length cs)%nat ->
  log_of (add_all cs (self, w))
  = last_n (Z.to_nat (_max_items self)) (map item_of cs)
  /\ length (log_of (add_all cs (self, w))) = Z.to_nat (_max_items self).
Proof.
  intros Hk Hn.
  destruct (add_all_returns cs self w) as [w' ->].
  unfold log_of; simpl.
  assert (cs <> []) by (destruct cs; simpl in *; [lia|discriminate]).
  rewrite fold_keep_pos by assumption.
  rewrite last_n_app_long by now rewrite length_map.
  split; [reflexivity|].
  apply last_n_length. now rewrite length_map.
Qed.

(** *** With a bound of zero *)

Lemma keep_zero l : keep 0 l = l.
Proof. unfold keep. destruct (_ >? _)%Z; reflexivity. Qed.

Lemma fold_keep_zero cs : forall l,
  fold_left (fun l c => keep 0 (l ++ [item_of c])) cs l
  = l ++ map item_of cs.
Proof.
  induction cs as [|c cs IH]; intros l; simpl.
  - now rewrite app_nil_r.
  - rewrite IH, keep_zero, <- app_assoc. reflexivity.
Qed.

(** With [max_items = 0] nothing is ever evicted: [[-0:]] is the whole
    list. *)
Lemma add_all_zero_keeps_all cs self w :
  _max_items self = 0%Z ->
  log_of (add_all cs (self, w)) = _memories self ++ map item_of cs.
Proof.
  intros H0.
  destruct (add_all_returns cs self w) as [w' ->].
  unfold log_of; simpl. rewrite H0. apply fold_keep_zero.
Qed.

End Store.

(** ** Timestamps: [fromisoformat] undoes [isoformat] *)

Section Timestamps.

Import datetime.

Lemma is_digit_digit (n : N) : is_digit (digit n) = true.
Proof.
  unfold is_digit, digit.
  assert (n mod 10 < 10)%N by (apply N.mod_upper_bound; discriminate).
  generalize dependent (n mod 10)%N. intros m Hm.
  apply andb_true_iff; split; apply N.leb_le; lia.
Qed.

Lemma take_digits_pad (w : nat) : forall n acc rest,
  take_digits w acc (pad w n ++ rest)
  = Some ((acc * 10 ^ N.of_nat w + n mod 10 ^ N.of_nat w)%N, rest).
Proof.
  induction w as [|w IH]; intros n acc rest.
  - simpl. rewrite N.mod_1_r. do 2 f_equal. lia.
  - change (pad (S w) n ++ rest)
      with (digit (n / 10 ^ N.of_nat w) :: (pad w n ++ rest)).
    cbn [take_digits]. rewrite is_digit_digit, IH.
    do 2 f_equal.
    rewrite Nat2N.inj_succ, N.pow_succ_r'.
    rewrite (N.mul_comm 10 (10 ^ N.of_nat w)), N.Div0.mod_mul_r.
    unfold digit.
    set (p := (10 ^ N.of_nat w)%N).
    generalize ((n / p) mod 10)%N (n mod p)%N. intros q r.
    replace (48 + q - 48)%N with q by lia. nia.
Qed.

Lemma take_digits_pad_small (w : nat) n rest :
  (n < 10 ^ N.of_nat w)%N ->
  take_digits w 0 (pad w n ++ rest) = Some (n, rest).
Proof.
  intros H. rewrite take_digits_pad, N.mod_small by assumption.
  reflexivity.
Qed.

Lemma bind_opt_Some {A B} (a : A) (k : A -> option B) :
  bind_opt (Some a) k = k a.
Proof. reflexivity. Qed.

Lemma expect_hit (c : N) (r : pystr) : expect c (c :: r) = Some r.
Proof. simpl. now rewrite N.eqb_refl. Qed.

Lemma valid_bounds (d : t) :
  valid d = true ->
  (year d < 10 ^ N.of_nat 4 /\ month d < 10 ^ N.of_nat 2
   /\ day d < 10 ^ N.of_nat 2 /\ hour d < 10 ^ N.of_nat 2
   /\ minute d < 10 ^ N.of_nat 2 /\ second d < 10 ^ N.of_nat 2
   /\ microsecond d < 10 ^ N.of_nat 6)%N.
Proof.
  unfold valid. rewrite !andb_true_iff, !N.leb_le, !N.ltb_lt.
  intros [[[[[[[[[? ?] ?] ?] ?] Hd] ?] ?] ?] ?].
  assert (days_in_month (year d) (month d) <= 31)%N.
  { unfold days_in_month.
    repeat match goal with |- context [if ?b then _ else _] =>
      destruct b end; lia. }
  change (10 ^ N.of_nat 4)%N with 10000%N.
  change (10 ^ N.of_nat 2)%N with 100%N.
  change (10 ^ N.of_nat 6)%N with 1000000%N.
  lia.
Qed.

Lemma parse_isoformat (d : t) :
  valid d = true -> parse (isoformat d) = Some d.
Proof.
  intros Hv. destruct (valid_bounds d Hv) as (Hy & Hmo & Hd & Hh & Hmi & Hs & Hus).
  unfold parse, isoformat.
  rewrite take_digits_pad_small, bind_opt_Some by assumption; cbv beta iota.
  rewrite expect_hit, bind_opt_Some.
  rewrite take_digits_pad_small, bind_opt_Some by assumption; cbv beta iota.
  rewrite expect_hit, bind_opt_Some.
  rewrite take_digits_pad_small, bind_opt_Some by assumption; cbv beta iota.
  change (any_char (letter_T :: ?r)) with (Some r). rewrite bind_opt_Some.
  rewrite take_digits_pad_small, bind_opt_Some by assumption; cbv beta iota.
  rewrite expect_hit, bind_opt_Some.
  rewrite take_digits_pad_small, bind_opt_Some by assumption; cbv beta iota.
  rewrite expect_hit, bind_opt_Some.
  rewrite take_digits_pad_small, bind_opt_Some by assumption; cbv beta iota.
  destruct (N.eqb_spec (microsecond d) 0) as [H0|Hne].
  - simpl. destruct d; simpl in *; subst; reflexivity.
  - unfold parse_fraction.
    rewrite expect_hit, bind_opt_Some.
    rewrite <- (app_nil_r (pad 6 (microsecond d))).
    rewrite take_digits_pad_small, bind_opt_Some by assumption.
    cbv beta iota. rewrite bind_opt_Some. destruct d; reflexivity.
Qed.

Lemma fromisoformat_isoformat (d : t) :
  valid d = true -> fromisoformat (isoformat d) = inr d.
Proof.
  intros Hv. unfold fromisoformat.
  now rewrite parse_isoformat, Hv.
Qed.

End Timestamps.

(** ** JSON: [json.load] undoes [json.dump] on JSON-native values *)


Section Json.

Lemma json_encode_list l :
  json_encode (PList l)
  = match encode_list l with inl e => inl e | inr js => inr (JArr js) end.
Proof. reflexivity. Qed.

Lemma json_encode_tuple l :
  json_encode (PTuple l)
  = match encode_list l with inl e => inl e | inr js => inr (JArr js) end.
Proof. reflexivity. Qed.

Lemma json_encode_dict d :
  json_encode (PDict d)
  = match encode_pairs d with inl e => inl e | inr js => inr (JObj js) end.
Proof. reflexivity. Qed.

Lemma json_decode_obj l : json_decode (JObj l) = PDict (decode_pairs l []).
Proof. reflexivity. Qed.

Lemma well_formed_dict d :
  well_formed (PDict d)
  = distinct_keys d && forallb (fun kv => well_formed (snd kv)) d.
Proof.
  simpl. f_equal. induction d as [|[k x] d IH]; simpl; [reflexivity|].
  now rewrite IH.
Qed.

Lemma json_native_dict d :
  json_native (PDict d)
  = forallb (fun kv => utf8_encodable (fst kv) && json_native (snd kv)) d.
Proof.
  simpl. induction d as [|[k x] d IH]; simpl; [reflexivity|].
  now rewrite IH.
Qed.

(** *** Dictionaries *)

Lemma has_key_app {V} (a b : list (pystr * V)) k :
  has_key (a ++ b) k = has_key a k || has_key b k.
Proof.
  unfold has_key. induction a as [|[k' v] a IH]; simpl; [reflexivity|].
  destruct (str_eqb k' k); [reflexivity|exact IH].
Qed.

Lemma dict_set_fresh {V} (d : list (pystr * V)) k v :
  has_key d k = false -> dict_set d k v = d ++ [(k, v)].
Proof.
  unfold has_key. induction d as [|[k' v'] d IH]; simpl; [reflexivity|].
  destruct (str_eqb k' k); [discriminate|].
  intros H. now rewrite IH.
Qed.

Lemma has_key_single {V} k k' (v : V) :
  has_key [(k, v)] k' = str_eqb k k'.
Proof. unfold has_key. simpl. now destruct (str_eqb k k'). Qed.

Lemma str_eqb_sym a b : str_eqb a b = str_eqb b a.
Proof.
  destruct (str_eqb a b) eqn:E.
  - apply str_eqb_eq in E. subst. symmetry. apply str_eqb_refl.
  - symmetry. apply str_eqb_neq. apply str_eqb_neq in E. congruence.
Qed.

(** Reading back the members of an object whose names are distinct and
    new appends them in order. *)
Lemma decode_pairs_distinct (d : pydict) : forall js acc,
  encode_pairs d = inr js ->
  Forall (fun kv => forall j, json_encode (snd kv) = inr j ->
                              json_decode j = snd kv) d ->
  distinct_keys d = true ->
  (forall k, has_key d k = true -> has_key acc k = false) ->
  decode_pairs js acc = acc ++ d.
Proof.
  induction d as [|[k x] d IH]; intros js acc Henc Hall Hd Hacc.
  - injection Henc as <-. simpl. now rewrite app_nil_r.
  - simpl in Henc.
    destruct (utf8_encodable k); [|discriminate].
    destruct (json_encode x) as [e|j] eqn:Ex; [discriminate|].
    destruct (encode_pairs d) as [e|js'] eqn:Ed; [discriminate|].
    injection Henc as <-.
    inversion Hall as [|? ? Hx Hrest]; subst.
    simpl in Hd. apply andb_true_iff in Hd as [Hk Hd].
    apply negb_true_iff in Hk.
    simpl in Hx. cbn [decode_pairs]. rewrite (Hx j Ex).
    rewrite dict_set_fresh.
    2:{ apply Hacc. unfold has_key. simpl. now rewrite str_eqb_refl. }
    rewrite (IH js' (acc ++ [(k, x)]) eq_refl Hrest Hd).
    + now rewrite <- app_assoc.
    + intros k' Hk'. rewrite has_key_app, has_key_single.
      apply orb_false_iff. split.
      * apply Hacc. unfold has_key in *. simpl.
        destruct (str_eqb k k'); [reflexivity|exact Hk'].
      * destruct (str_eqb k k') eqn:E; [|reflexivity].
        apply str_eqb_eq in E. subst. congruence.
Qed.

(** *** The round trip on values *)

Lemma encode_list_round_trips l :
  Forall round_trips l ->
  forallb well_formed l = true -> forallb json_native l = true ->
  exists js, encode_list l = inr js /\ map json_decode js = l.
Proof.
  induction 1 as [|x l Hx _ IH]; simpl; intros Hw Hn.
  - now exists [].
  - apply andb_true_iff in Hw as [Hwx Hw].
    apply andb_true_iff in Hn as [Hnx Hn].
    destruct (Hx Hwx Hnx) as (j & -> & Hj).
    destruct (IH Hw Hn) as (js & -> & Hjs).
    exists (j :: js). simpl. now rewrite Hj, Hjs.
Qed.

Lemma encode_pairs_total (d : pydict) :
  Forall (fun kv => round_trips (snd kv)) d ->
  forallb (fun kv => well_formed (snd kv)) d = true ->
  forallb (fun kv => utf8_encodable (fst kv) && json_native (snd kv)) d
  = true ->
  exists js,
    encode_pairs d = inr js
    /\ Forall (fun kv => forall j, json_encode (snd kv) = inr j ->
                                   json_decode j = snd kv) d.
Proof.
  induction 1 as [|[k x] d Hx _ IH]; simpl; intros Hw Hn.
  - exists []. split; [reflexivity|constructor].
  - apply andb_true_iff in Hw as [Hwx Hw].
    apply andb_true_iff in Hn as [Hnx Hn].
    apply andb_true_iff in Hnx as [Hk Hnx]. simpl in Hk.
    destruct (Hx Hwx Hnx) as (j & Ej & Hj).
    destruct (IH Hw Hn) as (js & Ejs & Hjs).
    simpl in Ej. rewrite Hk, Ej, Ejs.
    exists ((k, j) :: js). split; [reflexivity|].
    constructor; [|exact Hjs].
    simpl in *. intros j' Ej'. congruence.
Qed.

Lemma json_round_trip (v : pyval) : round_trips v.
Proof.
  induction v using pyval_nested_ind; unfold round_trips;
    try (intros _ _; eexists; split; reflexivity);
    try (intros _ Hn; discriminate Hn).
  - (* str *)
    intros _ Hn. simpl in Hn. exists (JStr s). simpl. now rewrite Hn.
  - (* list *)
    intros Hw Hn. simpl in Hw, Hn.
    destruct (encode_list_round_trips l H Hw Hn) as (js & Ejs & Hjs).
    exists (JArr js). rewrite json_encode_list, Ejs.
    split; [reflexivity|]. simpl. now rewrite Hjs.
  - (* dict *)
    intros Hw Hn.
    rewrite well_formed_dict in Hw. rewrite json_native_dict in Hn.
    apply andb_true_iff in Hw as [Hd Hw].
    destruct (encode_pairs_total d H Hw Hn) as (js & Ejs & Hjs).
    exists (JObj js). rewrite json_encode_dict, Ejs.
    split; [reflexivity|].
    rewrite json_decode_obj.
    rewrite (decode_pairs_distinct d js [] Ejs Hjs Hd); [reflexivity|].
    intros k _. reflexivity.
Qed.

End Json.

(** ** Persistence: what [_save] writes, [_load] reads back *)

Section Persistence.

Import ForumMemory.

Lemma io_op_quiet w : faults w = [] -> io_op w = (inr tt, w).
Proof. unfold io_op. now intros ->. Qed.

Lemma open_write_quiet w :
  faults w = [] ->
  open_write w = (inr tt, mkWorld (Some Garbage) [] (logs w) (slept w)).
Proof.
  intros H. unfold open_write, bind. rewrite io_op_quiet by assumption.
  unfold set_disk. now rewrite H.
Qed.

Lemma json_dump_quiet data j w :
  faults w = [] -> json_encode data = inr j ->
  json_dump data w
  = (inr tt, mkWorld (Some (Document j)) [] (logs w) (slept w)).
Proof.
  intros H E. unfold json_dump, bind, lift. rewrite E. unfold ret.
  rewrite io_op_quiet by assumption. unfold set_disk. now rewrite H.
Qed.

Lemma json_load_quiet j w :
  faults w = [] -> disk w = Some (Document j) ->
  json_load w = (inr (json_decode j), w).
Proof.
  intros H D. unfold json_load, open_read, bind.
  rewrite io_op_quiet by assumption. now rewrite D.
Qed.

(** *** One item *)

Lemma to_dict_fields (a b c d : pyval) :
  let data := PDict [ (lit "memory_type", a); (lit "content", b);
                      (lit "timestamp", c); (lit "metadata", d) ] in
  subscript data (lit "memory_type") = inr a
  /\ subscript data (lit "content") = inr b
  /\ subscript data (lit "timestamp") = inr c
  /\ dict_get_default
       [ (lit "memory_type", a); (lit "content", b);
         (lit "timestamp", c); (lit "metadata", d) ]
       (lit "metadata") (PDict []) = d.
Proof. repeat split; vm_compute; reflexivity. Qed.

Lemma to_dict_distinct_keys (a b c d : pyval) :
  distinct_keys [ (lit "memory_type", a); (lit "content", b);
                  (lit "timestamp", c); (lit "metadata", d) ] = true.
Proof. vm_compute. reflexivity. Qed.

Lemma from_dict_to_dict (m : MemoryItem.t) :
  datetime.valid (MemoryItem.timestamp m) = true ->
  MemoryItem.from_dict (MemoryItem.to_dict m) = inr m.
Proof.
  intros Hv.
  unfold MemoryItem.from_dict, MemoryItem.get_metadata, MemoryItem.to_dict.
  destruct (to_dict_fields (PStr (MemoryItem.memory_type m))
              (PStr (MemoryItem.content m))
              (PStr (datetime.isoformat (MemoryItem.timestamp m)))
              (PDict (MemoryItem.metadata m))) as (-> & -> & -> & ->).
  cbn [MemoryItem.bind_exn MemoryItem.as_str MemoryItem.as_dict].
  rewrite fromisoformat_isoformat by assumption.
  cbn [MemoryItem.bind_exn]. destruct m; reflexivity.
Qed.

Lemma to_dict_well_formed (m : MemoryItem.t) :
  well_formed (MemoryItem.to_dict m)
  = well_formed (PDict (MemoryItem.metadata m)).
Proof.
  unfold MemoryItem.to_dict. rewrite well_formed_dict.
  rewrite to_dict_distinct_keys.
  cbn [forallb snd andb well_formed]. now rewrite andb_true_r.
Qed.

Lemma utf8_encodable_app (a b : pystr) :
  utf8_encodable (a ++ b) = utf8_encodable a && utf8_encodable b.
Proof. apply forallb_app. Qed.

Lemma utf8_encodable_pad (w : nat) (n : N) :
  utf8_encodable (datetime.pad w n) = true.
Proof.
  induction w as [|w IH]; [reflexivity|].
  unfold utf8_encodable in *. cbn [datetime.pad forallb]. rewrite IH.
  rewrite andb_true_r. apply negb_true_iff.
  unfold is_surrogate, datetime.digit.
  assert (Hm : ((n / 10 ^ N.of_nat w) mod 10 < 10)%N)
    by (apply N.mod_upper_bound; discriminate).
  generalize dependent ((n / 10 ^ N.of_nat w) mod 10)%N. intros m Hm.
  apply andb_false_iff. left. apply N.leb_gt. lia.
Qed.

Lemma utf8_encodable_cons (c : N) (r : pystr) :
  utf8_encodable (c :: r) = negb (is_surrogate c) && utf8_encodable r.
Proof. reflexivity. Qed.

Lemma utf8_encodable_isoformat (d : datetime.t) :
  utf8_encodable (datetime.isoformat d) = true.
Proof.
  unfold datetime.isoformat.
  repeat rewrite ?utf8_encodable_app, ?utf8_encodable_cons,
    ?utf8_encodable_pad.
  destruct (datetime.microsecond d =? 0)%N;
    rewrite ?utf8_encodable_cons, ?utf8_encodable_pad; reflexivity.
Qed.

Lemma to_dict_json_native (m : MemoryItem.t) :
  json_native (MemoryItem.to_dict m) = item_json m.
Proof.
  unfold MemoryItem.to_dict, item_json. rewrite json_native_dict.
  cbn [forallb fst snd json_native].
  rewrite utf8_encodable_isoformat.
  change (utf8_encodable (lit "memory_type")) with true.
  change (utf8_encodable (lit "content")) with true.
  change (utf8_encodable (lit "timestamp")) with true.
  change (utf8_encodable (lit "metadata")) with true.
  cbn [andb]. rewrite andb_true_r, andb_assoc. reflexivity.
Qed.

(** *** A whole log *)

Lemma comprehension_from_dict (l : list MemoryItem.t) :
  forallb item_valid l = true ->
  comprehension MemoryItem.from_dict (map MemoryItem.to_dict l) = inr l.
Proof.
  induction l as [|m l IH]; simpl; [reflexivity|].
  intros H. apply andb_true_iff in H as [Hm Hl].
  apply andb_true_iff in Hm as [Hv _].
  now rewrite from_dict_to_dict, IH.
Qed.

Lemma log_well_formed (l : list MemoryItem.t) :
  forallb item_valid l = true ->
  forallb well_formed (map MemoryItem.to_dict l) = true.
Proof.
  induction l as [|m l IH]; cbn [map forallb]; [reflexivity|].
  intros H. apply andb_true_iff in H as [Hm Hl].
  apply andb_true_iff in Hm as [_ Hw].
  now rewrite to_dict_well_formed, Hw, IH.
Qed.

Lemma log_json_native (l : list MemoryItem.t) :
  forallb item_json l = true ->
  forallb json_native (map MemoryItem.to_dict l) = true.
Proof.
  induction l as [|m l IH]; cbn [map forallb]; [reflexivity|].
  intros H. apply andb_true_iff in H as [Hm Hl].
  now rewrite to_dict_json_native, Hm, IH.
Qed.

Lemma log_encodes (l : list MemoryItem.t) :
  forallb item_valid l = true -> forallb item_json l = true ->
  exists j,
    json_encode (PList (map MemoryItem.to_dict l)) = inr j
    /\ json_decode j = PList (map MemoryItem.to_dict l).
Proof.
  intros Hv Hj. apply json_round_trip.
  - now apply log_well_formed.
  - now apply log_json_native.
Qed.

Lemma _save_quiet (self : t) (w : world) (j : json) :
  faults w = [] ->
  json_encode (PList (map MemoryItem.to_dict (_memories self))) = inr j ->
  _save (self, w)
  = (inr tt, (self, mkWorld (Some (Document j)) [] (logs w) (slept w))).
Proof.
  intros Hf Ej. unfold _save, try_except, bind, get_self; simpl.
  rewrite !in_world_run, open_write_quiet by assumption. simpl.
  rewrite (json_dump_quiet _ j) by (assumption || reflexivity).
  reflexivity.
Qed.

Lemma _load_quiet (self : t) (w : world) (j : json) l :
  faults w = [] -> disk w = Some (Document j) ->
  json_decode j = PList (map MemoryItem.to_dict l) ->
  forallb item_valid l = true ->
  exists w', _load (self, w) = (inr tt, (set_memories self l, w')).
Proof.
  intros Hf Hd Hj Hv. unfold _load.
  unfold bind at 1. rewrite in_world_run.
  unfold path_exists at 1 2. rewrite Hd. simpl.
  unfold try_except, bind. rewrite in_world_run.
  rewrite (json_load_quiet j) by assumption. simpl.
  rewrite Hj. simpl.
  rewrite comprehension_from_dict by assumption. simpl.
  eauto.
Qed.

Lemma __init___quiet (max_items : Z) (w : world) (j : json) l :
  faults w = [] -> disk w = Some (Document j) ->
  json_decode j = PList (map MemoryItem.to_dict l) ->
  forallb item_valid l = true ->
  exists w', __init__ max_items w = (inr (mk max_items l), w').
Proof.
  intros Hf Hd Hj Hv. unfold __init__, bind, makedirs.
  rewrite io_op_quiet by assumption.
  destruct (_load_quiet (mk max_items []) w j l Hf Hd Hj Hv) as [w' ->].
  eauto.
Qed.

End Persistence.

(* ================================================================== *)
(** * The claims *)

(** ** Eviction *)

(** C1 (the code departs from the claim when [max_items = 0]).  After
    three appends to an empty store configured with [max_items = 0] the
    log holds all three items instead of none: the trimming slice
    [[-0:]] is the whole list.  For every bound of at least one the claim
    holds, see [add_all_fifo]. *)
Theorem C1_zero_bound_keeps_everything :
  log_of (add_all three_calls (ForumMemory.mk 0 [], quiet_world))
  = map item_of three_calls
  /\ length (log_of (add_all three_calls (ForumMemory.mk 0 [], quiet_world)))
     = 3%nat.
Proof.
  rewrite add_all_zero_keeps_all by reflexivity. split; reflexivity.
Qed.

(** ** Round trip through the disk *)

Section RoundTrip.

Import ForumMemory.

(** C2 (amended).  When the file operations succeed, the strings of the
    items hold no lone surrogate and the metadata of every item is made
    of values a JSON file gives back unchanged ([None], booleans,
    integers, strings, lists and string-keyed dicts of such), saving a
    log and building a new store from the disk gives the same sequence
    of items: same kind, content, timestamp and metadata, in the same
    order. *)
Theorem C2_reload_reproduces_json_log (self : t) (w : world) :
  faults w = [] ->
  forallb item_valid (_memories self) = true ->
  forallb item_json (_memories self) = true ->
  reload self w = inr (_memories self).
Proof.
  intros Hf Hv Hj.
  destruct (log_encodes (_memories self) Hv Hj) as (j & Ej & Dj).
  unfold reload. rewrite (_save_quiet self w j Hf Ej).
  destruct (__init___quiet (_max_items self)
              (mkWorld (Some (Document j)) [] (logs w) (slept w))
              j (_memories self) eq_refl eq_refl Dj Hv) as [w' ->].
  reflexivity.
Qed.

Lemma C2_reload_witness :
  reload ten_store quiet_world = inr (_memories ten_store).
Proof.
  apply C2_reload_reproduces_json_log; reflexivity.
Defined.

(** C2 as stated fails: a tuple in the metadata of an item is written as
    a JSON array and comes back as a list; and a content that holds a
    lone surrogate cannot be written at all, so that the reloaded log is
    empty. *)
Lemma C2_tuple_comes_back_as_list :
  faults quiet_world = []
  /\ forallb item_valid (_memories tagged_store) = true
  /\ reload tagged_store quiet_world = inr [tagged_item_reloaded]
  /\ reload tagged_store quiet_world <> inr (_memories tagged_store)
  /\ forallb item_valid (_memories surrogate_store) = true
  /\ reload surrogate_store quiet_world = inr []
  /\ reload surrogate_store quiet_world <> inr (_memories surrogate_store).
Proof.
  repeat split; vm_compute; discriminate.
Qed.

(** A lone surrogate in a content makes the write fail half-way: the
    failure is logged, the file is left incomplete and the next store
    starts empty. *)
Lemma surrogate_content_is_not_persisted :
  ForumMemory._save (surrogate_store, quiet_world)
  = (inr tt,
     (surrogate_store,
      mkWorld (Some Garbage) [] [(ERROR, MemSaveFailed UnicodeEncodeError)] []))
  /\ reload surrogate_store quiet_world = inr [].
Proof. split; vm_compute; reflexivity. Qed.

End RoundTrip.

(** ** Persistence failures *)

Section Failures.

Import ForumMemory.




(** The constructor itself is not guarded: a failure of [os.makedirs]
    leaves it by an exception. *)
Lemma __init___when_makedirs_fails (max_items : Z) (w : world) fs :
  faults w = true :: fs ->
  __init__ max_items w
  = (inl OSError, mkWorld (disk w) fs (logs w) (slept w)).
Proof.
  intros Hf. unfold __init__, bind, makedirs, io_op. now rewrite Hf.
Qed.



End Failures.

(** ** Queries *)

Section Queries.

Import ForumMemory.

Lemma get_memories_all (self : t) :
  get_memories None None self = rev (_memories self).
Proof. reflexivity. Qed.

(** C9.  [limit=0] and [memory_type=""] are falsy: a zero limit returns
    every item, newest first, and an empty kind filters nothing; a limit
    other than zero slices the result and a non-empty kind filters the
    log. *)
Theorem C9_falsy_arguments_do_not_restrict (self : t) :
  (forall memory_type,
      get_memories memory_type (Some 0%Z) self
      = get_memories memory_type None self)
  /\ get_memories None (Some 0%Z) self = rev (_memories self)
  /\ (forall limit,
         get_memories (Some (lit "")) limit self
         = get_memories None limit self)
  /\ (forall memory_type k,
         k <> 0%Z ->
         get_memories memory_type (Some k) self
         = slice_to (get_memories memory_type None self) k)
  /\ (forall kind limit,
         kind <> lit "" ->
         get_memories (Some kind) None self
         = rev (filter (fun m => str_eqb (MemoryItem.memory_type m) kind)
                  (_memories self))
         /\ get_memories (Some kind) limit self
            = get_memories None limit
                (set_memories self
                   (filter
                      (fun m => str_eqb (MemoryItem.memory_type m) kind)
                      (_memories self)))).
Proof.
  repeat split.
  - intros memory_type k Hk. unfold get_memories, truthy_int.
    destruct (Z.eqb_spec k 0); [contradiction|reflexivity].
  - destruct kind as [|c kind]; [contradiction|reflexivity].
  - destruct kind as [|c kind]; [contradiction|reflexivity].
Qed.

Lemma C9_falsy_arguments_witness :
  get_memories (Some (lit "diary")) (Some 2%Z) ten_store
  = slice_to (get_memories (Some (lit "diary")) None ten_store) 2.
Proof.
  apply (C9_falsy_arguments_do_not_restrict ten_store). discriminate.
Defined.

(** *** Line breaks of the rendered lines *)

Lemma breaks_app (a b : pystr) : breaks (a ++ b) = (breaks a + breaks b)%nat.
Proof. unfold breaks. now rewrite filter_app, length_app. Qed.

Lemma breaks_cons (c : N) (r : pystr) :
  breaks (c :: r) = ((if (c =? 10)%N then 1 else 0) + breaks r)%nat.
Proof. unfold breaks. simpl. now destruct (c =? 10)%N. Qed.

Lemma breaks_pad (w : nat) (n : N) : breaks (datetime.pad w n) = 0%nat.
Proof.
  induction w as [|w IH]; [reflexivity|].
  unfold breaks in *. cbn [datetime.pad filter].
  replace (datetime.digit (n / 10 ^ N.of_nat w) =? 10)%N with false; [exact IH|].
  symmetry. apply N.eqb_neq. unfold datetime.digit.
  generalize ((n / 10 ^ N.of_nat w) mod 10)%N. intros m. lia.
Qed.

Lemma breaks_strftime (d : datetime.t) :
  breaks (datetime.strftime_md_HM d) = 0%nat.
Proof.
  unfold datetime.strftime_md_HM.
  rewrite breaks_app, breaks_cons, breaks_app, breaks_cons, breaks_app,
    breaks_cons, !breaks_pad.
  reflexivity.
Qed.

Lemma breaks_emoji (memory_type : pystr) :
  breaks (_get_type_emoji memory_type) = 0%nat.
Proof.
  unfold _get_type_emoji, dict_get_default, emojis. cbn [dict_get].
  repeat match goal with |- context [if ?b then _ else _] =>
    destruct b; [reflexivity|] end.
  reflexivity.
Qed.

Lemma breaks_summary_line (item : MemoryItem.t) :
  breaks (summary_line item) = breaks (MemoryItem.content item).
Proof.
  unfold summary_line. rewrite !breaks_app, breaks_emoji, breaks_strftime.
  reflexivity.
Qed.

Lemma count_lines_breaks (s : pystr) : count_lines s = S (breaks s).
Proof. reflexivity. Qed.

(** *** Summaries *)

Lemma summary_header_not_no_activity (rest : pystr) :
  summary_header ++ rest <> no_activity.
Proof. intros H. vm_compute in H. discriminate H. Qed.

Lemma appended_to_empty (self : t) (item : MemoryItem.t) :
  _memories self = [] -> (0 <= _max_items self)%Z ->
  appended self item = [item].
Proof.
  intros He Hk. unfold appended, keep. rewrite He. simpl.
  destruct (1 >? _max_items self)%Z eqn:E; [|reflexivity].
  replace (_max_items self) with 0%Z by lia. reflexivity.
Qed.

(** C5 (amended).  On a store of ten items [get_summary 3] is the header
    line followed by the entries of the three newest items, newest
    first, one per item; on a store of one item [get_summary 1] is the
    header line followed by the entry of that item, and not the
    empty-store message; so it is after one [add_memory] on an empty
    store whose bound is not negative.  When the contents hold no line
    break that makes four lines, and two lines. *)
Theorem C5_summary_is_header_then_entries (self : t) :
  (forall i1 i2 i3 i4 i5 i6 i7 i8 i9 i10,
      _memories self = [i1; i2; i3; i4; i5; i6; i7; i8; i9; i10] ->
      get_summary 3 self
      = join newline [ summary_header; summary_line i10; summary_line i9;
                       summary_line i8 ]
      /\ (breaks (MemoryItem.content i10) = 0%nat ->
          breaks (MemoryItem.content i9) = 0%nat ->
          breaks (MemoryItem.content i8) = 0%nat ->
          count_lines (get_summary 3 self) = 4%nat))
  /\ (forall item,
         _memories self = [item] ->
         get_summary 1 self = join newline [summary_header; summary_line item]
         /\ get_summary 1 self <> no_activity
         /\ (breaks (MemoryItem.content item) = 0%nat ->
             count_lines (get_summary 1 self) = 2%nat))
  /\ (forall memory_type content metadata now w,
         _memories self = [] -> (0 <= _max_items self)%Z ->
         exists self' w',
           add_memory memory_type content metadata now (self, w)
           = (inr tt, (self', w'))
           /\ get_summary 1 self'
              = join newline
                  [ summary_header;
                    summary_line (MemoryItem.mk memory_type content now
                                    (or_empty metadata)) ]).
Proof.
  split; [|split].
  - intros i1 i2 i3 i4 i5 i6 i7 i8 i9 i10 Hm.
    assert (E : get_summary 3 self
                = join newline [ summary_header; summary_line i10;
                                 summary_line i9; summary_line i8 ]).
    { unfold get_summary, get_memories. rewrite Hm. reflexivity. }
    split; [exact E|].
    intros H10 H9 H8. rewrite E, count_lines_breaks.
    cbn [join]. rewrite !breaks_app, !breaks_summary_line, H10, H9, H8.
    reflexivity.
  - intros item Hm.
    assert (E : get_summary 1 self
                = join newline [summary_header; summary_line item]).
    { unfold get_summary, get_memories. rewrite Hm. reflexivity. }
    repeat split; [exact E| |].
    + rewrite E. cbn [join]. apply summary_header_not_no_activity.
    + intros H. rewrite E, count_lines_breaks. cbn [join].
      rewrite !breaks_app, breaks_summary_line, H. reflexivity.
  - intros memory_type content metadata now w He Hk.
    destruct (add_memory_returns memory_type content metadata now self w)
      as (w' & E & _).
    rewrite appended_to_empty in E by assumption.
    do 2 eexists. split; [exact E|]. reflexivity.
Qed.

Lemma C5_summary_witness :
  get_summary 3 ten_store
  = join newline [ summary_header; summary_line (about 42 10);
                   summary_line (about 42 9); summary_line (unrelated 8) ]
  /\ count_lines (get_summary 3 ten_store) = 4%nat.
Proof.
  destruct (C5_summary_is_header_then_entries ten_store) as (H & _ & _).
  destruct (H (about 42 1) (unrelated 2) (about 42 3) (about 42 4)
              (about 7 5) (about 42 6) (about 42 7) (unrelated 8)
              (about 42 9) (about 42 10) eq_refl) as [E L].
  split; [exact E|]. apply L; reflexivity.
Defined.

(** C5 as stated fails: the summary of the three newest of ten items has
    four lines, and the summary of a single item has two. *)
Lemma C5_summary_has_a_header_line :
  count_lines (get_summary 3 ten_store) = 4%nat
  /\ count_lines (get_summary 3 ten_store) <> 3%nat
  /\ count_lines (get_summary 1 (mk 50 [unrelated 8])) = 2%nat
  /\ count_lines (get_summary 1 (mk 50 [unrelated 8])) <> 1%nat.
Proof. vm_compute. repeat split; discriminate. Qed.

(** *** Thread context *)




End Queries.

(** ** Notifications *)

Section Notifications.

Import AstrBookAdapter.

Lemma in_memory_run {A} (m : M ForumMemory.state A) (self : t) (w : world) :
  in_memory m (self, w)
  = (fst (m (memory self, w)),
     (set_memory self (fst (snd (m (memory self, w)))),
      snd (snd (m (memory self, w))))).
Proof.
  unfold in_memory, zoom. simpl.
  destruct (m (memory self, w)) as [r [mem w']]. reflexivity.
Qed.

Lemma _handle_notification_returns data tk self w :
  exists ev w',
    _handle_notification data tk (self, w)
    = (inr tt, (notified self (notification_item data tk) ev, w'))
    /\ slept w' = slept w.
Proof.
  unfold _handle_notification, notification_item, notified.
  unfold bind at 1. rewrite in_world_run, logger_run. cbn [fst snd].
  unfold bind at 1.
  destruct (opt_str_eqb (type_ data) (lit "mention"));
    rewrite in_memory_run;
    match goal with |- context [ForumMemory.add_memory ?a ?b ?c ?d ?s] =>
      let w1 := fresh "w" in
      destruct (add_memory_returns a b c d (fst s) (snd s))
        as (w1 & E & Hs);
      cbn [fst snd] in E; rewrite E
    end;
    cbn [fst snd];
    unfold bind, get_self, commit_event, bind, get_self, put_self;
    cbn [fst snd ForumMemory.or_empty notification_metadata];
    do 2 eexists; (split; [reflexivity|exact Hs]).
Qed.

Lemma memory_notified self item ev :
  ForumMemory._memories (memory (notified self item ev))
  = appended (memory self) item.
Proof. reflexivity. Qed.

(** With a bound that is not negative the item just appended is the
    last of the log. *)
Lemma appended_last (mem : ForumMemory.t) (item : MemoryItem.t) :
  (0 <= ForumMemory._max_items mem)%Z ->
  exists older, appended mem item = older ++ [item].
Proof.
  intros Hk. unfold appended, keep.
  destruct (_ >? _)%Z eqn:E; [|eauto].
  destruct (Z.eq_dec (ForumMemory._max_items mem) 0) as [->|Hne].
  - rewrite slice_from_zero. eauto.
  - rewrite slice_from_neg by lia. rewrite length_app. simpl.
    rewrite skipn_app.
    replace (length (ForumMemory._memories mem) + 1
             - Z.to_nat (ForumMemory._max_items mem)
             - length (ForumMemory._memories mem))%nat with 0%nat by lia.
    simpl. eauto.
Qed.

Lemma endswith_app (a e : pystr) : endswith (a ++ e) e = true.
Proof.
  unfold endswith. rewrite length_app.
  replace (length a + length e - length e)%nat with (length a) by lia.
  rewrite skipn_app, skipn_all, Nat.sub_diag. simpl.
  rewrite str_eqb_refl. apply Nat.leb_le. lia.
Qed.

Lemma endswith_app_r (a b e : pystr) :
  endswith b e = true -> endswith (a ++ b) e = true.
Proof.
  unfold endswith. rewrite !andb_true_iff, !Nat.leb_le, !str_eqb_eq.
  intros [Hs Hl]. rewrite length_app. split; [|lia].
  rewrite skipn_app, skipn_all2 by lia. simpl.
  rewrite <- Hs at 2. f_equal. lia.
Qed.

Lemma slice_to_long (c : pystr) :
  (50 < length c)%nat ->
  slice_to c 50 = firstn 50 c /\ length (firstn 50 c) = 50%nat.
Proof.
  intros H. rewrite slice_to_nonneg by lia. split; [reflexivity|].
  rewrite length_firstn. lia.
Qed.

(** C4.  A mention whose content [c] has more than 50 characters is
    stored as an item of kind [mentioned] whose content is the
    introduction naming the user and the thread, then exactly the first
    50 characters of [c], then the ellipsis, with metadata
    [thread_id], [thread_title] and [from_user]; with a bound that is
    not negative the item is the newest of the log. *)
Theorem C4_mention_keeps_first_fifty data tk self w (c : pystr) :
  type_ data = Some (lit "mention") ->
  content data = Some c ->
  (50 < length c)%nat ->
  let user := get_or (from_username data) (lit "unknown") in
  let title := get_or (thread_title data) (lit "") in
  let item :=
    MemoryItem.mk (lit "mentioned")
      (lit "被 @" ++ user ++ lit " 在《" ++ title ++ lit "》中提及: "
       ++ firstn 50 c ++ lit "...")
      (now tk)
      [ (lit "thread_id", opt_int (thread_id data));
        (lit "thread_title", PStr title);
        (lit "from_user", PStr user) ] in
  exists self' w',
    _handle_notification data tk (self, w) = (inr tt, (self', w'))
    /\ ForumMemory._memories (memory self') = appended (memory self) item
    /\ ((0 <= ForumMemory._max_items (memory self))%Z ->
        exists older,
          ForumMemory._memories (memory self') = older ++ [item])
    /\ length (firstn 50 c) = 50%nat.
Proof.
  intros Ht Hc Hlen user title item.
  destruct (_handle_notification_returns data tk self w)
    as (ev & w' & E & _).
  destruct (slice_to_long c Hlen) as [Hs Hl].
  assert (Hitem : notification_item data tk = item).
  { unfold notification_item, mention_text, ellipsis.
    rewrite Ht, Hc. cbn [get_or]. rewrite Hs. reflexivity. }
  rewrite Hitem in E.
  exists (notified self item ev), w'.
  rewrite memory_notified.
  repeat split; [exact E| |exact Hl].
  intros Hk. now apply appended_last.
Qed.

Lemma C4_mention_witness :
  exists self' w',
    _handle_notification long_mention sample_tick
      (fresh_adapter, quiet_world) = (inr tt, (self', w'))
    /\ ForumMemory._memories (memory self')
       = [ MemoryItem.mk (lit "mentioned")
             (lit "被 @bob 在《Hello》中提及: " ++ repeat 97%N 50 ++ lit "...")
             (at_minute 15)
             [ (lit "thread_id", PInt 42);
               (lit "thread_title", PStr (lit "Hello"));
               (lit "from_user", PStr (lit "bob")) ] ].
Proof.
  destruct (C4_mention_keeps_first_fifty long_mention sample_tick
              fresh_adapter quiet_world sixty eq_refl eq_refl)
    as (self' & w' & E & Hm & _).
  - simpl. lia.
  - exists self', w'. split; [exact E|]. rewrite Hm. reflexivity.
Defined.

(** *** Dispatch *)

Lemma dispatch_notification data tk :
  In (type_ data)
     [Some (lit "mention"); Some (lit "reply"); Some (lit "sub_reply")] ->
  _handle_ws_message data tk
  = (in_world (logger DEBUG (WsReceived (type_ data))) ;;
     _handle_notification data tk).
Proof.
  intros H. unfold _handle_ws_message.
  simpl in H. destruct H as [<-|[<-|[<-|[]]]]; reflexivity.
Qed.

(** C10.  For a frame of type [mention], [reply] or [sub_reply] the
    content of the stored item is the introduction, then [content[:50]],
    then the ellipsis: it always ends with the ellipsis, and a content
    of at most 50 characters is there in full before it. *)
Theorem C10_ellipsis_whatever_the_length data tk self w :
  In (type_ data)
     [Some (lit "mention"); Some (lit "reply"); Some (lit "sub_reply")] ->
  let user := get_or (from_username data) (lit "unknown") in
  let title := get_or (thread_title data) (lit "") in
  let c := get_or (content data) (lit "") in
  let head :=
    if opt_str_eqb (type_ data) (lit "mention")
    then lit "被 @" ++ user ++ lit " 在《" ++ title ++ lit "》中提及: "
    else user ++ lit " 回复了你在《" ++ title ++ lit "》中的发言: " in
  exists self' w' item,
    _handle_ws_message data tk (self, w) = (inr tt, (self', w'))
    /\ ForumMemory._memories (memory self') = appended (memory self) item
    /\ MemoryItem.content item = head ++ slice_to c 50 ++ lit "..."
    /\ endswith (MemoryItem.content item) (lit "...") = true
    /\ ((length c <= 50)%nat ->
        MemoryItem.content item = head ++ c ++ lit "...").
Proof.
  intros Ht user title c head.
  rewrite (dispatch_notification data tk Ht).
  unfold bind at 1. rewrite in_world_run, logger_run. cbn [fst snd].
  match goal with |- context [_handle_notification data tk (self, ?w1)] =>
    destruct (_handle_notification_returns data tk self w1)
      as (ev & w' & E & _) end.
  exists (notified self (notification_item data tk) ev), w',
    (notification_item data tk).
  assert (Hc : MemoryItem.content (notification_item data tk)
               = head ++ slice_to c 50 ++ lit "...").
  { unfold notification_item, head, mention_text, reply_text, ellipsis.
    destruct (opt_str_eqb (type_ data) (lit "mention"));
      cbn [MemoryItem.content]; subst user title c;
      repeat rewrite <- app_assoc; reflexivity. }
  repeat split; [exact E|exact Hc| |].
  - rewrite Hc. apply endswith_app_r, endswith_app.
  - intros Hlen. rewrite Hc, slice_to_short by lia. reflexivity.
Qed.

Lemma C10_ellipsis_witness :
  exists self' w' item,
    _handle_ws_message short_reply sample_tick
      (fresh_adapter, quiet_world) = (inr tt, (self', w'))
    /\ ForumMemory._memories (memory self') = [item]
    /\ MemoryItem.content item
       = lit "bob 回复了你在《Hello》中的发言: hello...".
Proof.
  destruct (C10_ellipsis_whatever_the_length short_reply sample_tick
              fresh_adapter quiet_world)
    as (self' & w' & item & E & Hm & _ & _ & Hfull).
  - right. left. reflexivity.
  - exists self', w', item. split; [exact E|].
    split; [rewrite Hm; reflexivity|].
    rewrite Hfull; [reflexivity|]. simpl. lia.
Defined.

End Notifications.

(** ** Start-up *)

Section Startup.

Import AstrBookAdapter.

(** C8.  With an empty token [_run] logs the error and returns: no task
    is created, nothing is raised.  With any other token it creates the
    connection task (and the browse task when [auto_browse] is set) and
    waits on them; an empty token is the only case in which it
    returns. *)
Theorem C8_only_an_empty_token_disables (self : t) (w : world) :
  (token self = lit "" ->
   _run (self, w)
   = (inr Returned,
      (self,
       mkWorld (disk w) (faults w)
         (logs w ++ [(ERROR, TokenNotConfigured)]) (slept w))))
  /\ (token self <> lit "" ->
      exists w',
        _run (self, w)
        = (inr AwaitingGather,
           (set_tasks self
              (_tasks self
               ++ WsLoopTask
                  :: (if auto_browse self then [AutoBrowseTask] else [])),
            w')))
  /\ (fst (_run (self, w)) = inr Returned <-> token self = lit "").
Proof.
  change (lit "") with (@nil N).
  assert (E0 : token self = [] ->
               _run (self, w)
               = (inr Returned,
                  (self,
                   mkWorld (disk w) (faults w)
                     (logs w ++ [(ERROR, TokenNotConfigured)]) (slept w)))).
  { intros Ht. unfold _run. unfold bind at 1. unfold get_self at 1.
    cbn [fst snd]. rewrite Ht.
    unfold bind. rewrite in_world_run. reflexivity. }
  assert (E1 : token self <> [] ->
               _run (self, w)
               = (inr AwaitingGather,
                  (set_tasks self
                     (_tasks self
                      ++ WsLoopTask
                         :: (if auto_browse self
                             then [AutoBrowseTask] else [])),
                   mkWorld (disk w) (faults w)
                     (logs w ++ [(INFO, AdapterStarting)]) (slept w)))).
  { intros Ht. unfold _run. unfold bind at 1. unfold get_self at 1.
    cbn [fst snd].
    destruct self as [tok ab bi mem uid conn rd mrd tasks q].
    simpl in Ht. cbn [token auto_browse].
    destruct tok as [|c tok]; [congruence|].
    unfold bind at 1. rewrite in_world_run, logger_run. cbn [fst snd].
    destruct ab;
      unfold bind, create_task, bind, get_self, put_self, ret, set_tasks;
      simpl; rewrite <- ?app_assoc; reflexivity. }
  split; [exact E0|]. split; [eauto|].
  split.
  - intros H. destruct (token self) as [|c tok] eqn:Et; [reflexivity|].
    rewrite E1 in H by discriminate. discriminate H.
  - intros Ht. now rewrite E0.
Qed.

End Startup.

(** ** Reconnection *)

Section Reconnection.

Import AstrBookAdapter.

Lemma _ws_connect_refused a e self w :
  handshake a = Some e ->
  _ws_connect a (self, w)
  = (inl e,
     (self,
      mkWorld (disk w) (faults w) (logs w ++ [(INFO, WsConnecting)])
        (slept w))).
Proof.
  intros H. unfold _ws_connect. unfold bind at 1.
  rewrite in_world_run, logger_run. cbn [fst snd]. now rewrite H.
Qed.

(** A turn whose connection is refused waits the current delay and
    doubles it, up to the maximum. *)
Lemma turn_refused a e d self w :
  handshake a = Some e ->
  exists w',
    _ws_loop_turn a d (self, w)
    = (inr (Z.min (d * 2) (_max_reconnect_delay self)), (self, w'))
    /\ slept w' = slept w ++ [d].
Proof.
  intros H. unfold _ws_loop_turn.
  unfold bind at 1. unfold try_except. unfold bind at 1.
  rewrite (_ws_connect_refused a e self w H).
  unfold bind at 1. rewrite in_world_run, logger_run. cbn [fst snd].
  unfold ret at 1.
  unfold bind at 1. rewrite in_world_run, logger_run. cbn [fst snd].
  unfold bind at 1. rewrite in_world_run. unfold sleep. cbn [fst snd].
  unfold bind, get_self, ret. cbn [fst snd].
  eexists. split; reflexivity.
Qed.

Lemma loop_refused atts :
  Forall (fun a => handshake a <> None) atts ->
  forall d self w,
  exists d' w',
    _ws_loop_from atts d (self, w) = (inr d', (self, w'))
    /\ slept w' = slept w ++ backoff (_max_reconnect_delay self) d (length atts).
Proof.
  induction 1 as [|a atts Ha _ IH]; intros d self w; simpl.
  - exists d, w. now rewrite app_nil_r.
  - destruct (handshake a) as [e|] eqn:E; [|congruence].
    destruct (turn_refused a e d self w E) as (w1 & E1 & S1).
    unfold bind. rewrite E1.
    destruct (IH (Z.min (d * 2) (_max_reconnect_delay self)) self w1)
      as (d' & w' & E2 & S2).
    exists d', w'. split; [exact E2|].
    now rewrite S2, S1, <- app_assoc.
Qed.

(** *** What the handlers leave untouched *)

Lemma same_timing_refl s : same_timing s s.
Proof. repeat split. Qed.

Lemma same_timing_trans s1 s2 s3 :
  same_timing s1 s2 -> same_timing s2 s3 -> same_timing s1 s3.
Proof. unfold same_timing. intuition congruence. Qed.

Lemma _handle_notification_timing data tk s :
  exists s',
    _handle_notification data tk s = (inr tt, s') /\ same_timing s s'.
Proof.
  destruct s as [self w].
  destruct (_handle_notification_returns data tk self w)
    as (ev & w' & E & Hs).
  exists (notified self (notification_item data tk) ev, w').
  split; [exact E|]. repeat split. exact Hs.
Qed.

Lemma _handle_new_thread_timing data tk s :
  exists s',
    _handle_new_thread data tk s = (inr tt, s') /\ same_timing s s'.
Proof.
  destruct s as [self w]. unfold _handle_new_thread.
  unfold bind at 1. rewrite in_world_run, logger_run. cbn [fst snd].
  rewrite in_memory_run.
  match goal with |- context [ForumMemory.add_memory ?a ?b ?c ?d ?s] =>
    destruct (add_memory_returns a b c d (fst s) (snd s)) as (w1 & E & Hs);
    cbn [fst snd] in E; rewrite E
  end.
  cbn [fst snd]. eexists. split; [reflexivity|].
  repeat split. exact Hs.
Qed.

(** No handler raises, whatever the frame holds. *)
Lemma _handle_ws_message_timing data tk s :
  exists s',
    _handle_ws_message data tk s = (inr tt, s') /\ same_timing s s'.
Proof.
  destruct s as [self w]. unfold _handle_ws_message.
  unfold bind at 1. rewrite in_world_run, logger_run. cbn [fst snd].
  set (w1 := mkWorld _ _ _ _).
  destruct (opt_str_eqb (type_ data) (lit "connected")).
  { unfold bind, get_self, put_self. cbn [fst snd].
    rewrite in_world_run, logger_run. cbn [fst snd].
    eexists. split; [reflexivity|]. repeat split. }
  destruct (opt_str_eqb (type_ data) (lit "pong")).
  { eexists. split; [reflexivity|]. repeat split. }
  destruct (_ || _).
  { destruct (_handle_notification_timing data tk (self, w1))
      as (s' & E & Hs).
    exists s'. split; [exact E|exact Hs]. }
  destruct (opt_str_eqb (type_ data) (lit "new_thread")).
  { destruct (_handle_new_thread_timing data tk (self, w1))
      as (s' & E & Hs).
    exists s'. split; [exact E|exact Hs]. }
  eexists. split; [reflexivity|]. repeat split.
Qed.

(** The receive loop is left by an exception exactly when a text frame
    that cannot be decoded is met. *)
Lemma receive_outcome fs : forall s,
  exists s',
    receive fs s
    = ((if stream_raises fs then inl JSONDecodeError else inr tt), s')
    /\ same_timing s s'.
Proof.
  induction fs as [|[[[data|]| | |] tk] fs IH]; intros s; simpl.
  - exists s. split; [reflexivity|apply same_timing_refl].
  - unfold bind at 1. unfold ret at 1. unfold bind at 1.
    destruct (_handle_ws_message_timing data tk s) as (s1 & -> & H1).
    destruct (IH s1) as (s2 & E2 & H2).
    exists s2. split; [exact E2|]. eapply same_timing_trans; eassumption.
  - exists s. split; [reflexivity|apply same_timing_refl].
  - apply IH.
  - destruct s as [self w]. rewrite in_world_run, logger_run.
    eexists. split; [reflexivity|]. repeat split.
  - destruct s as [self w]. rewrite in_world_run, logger_run.
    eexists. split; [reflexivity|]. repeat split.
Qed.

Lemma _ws_connect_outcome a s :
  handshake a = None ->
  exists s',
    _ws_connect a s
    = ((if stream_raises (frames a) then inl JSONDecodeError else inr tt),
       s')
    /\ same_timing s s'.
Proof.
  intros H. destruct s as [self w]. unfold _ws_connect.
  unfold bind at 1. rewrite in_world_run, logger_run. cbn [fst snd].
  rewrite H.
  unfold bind at 1. unfold get_self at 1. cbn [fst snd].
  unfold bind at 1. unfold put_self at 1. cbn [fst snd].
  unfold bind at 1. rewrite in_world_run, logger_run. cbn [fst snd].
  unfold try_finally.
  match goal with |- context [receive (frames a) ?s0] =>
    destruct (receive_outcome (frames a) s0) as ([self1 w1] & -> & H1) end.
  unfold bind, get_self, put_self. cbn [fst snd].
  eexists. split; [reflexivity|].
  destruct H1 as (Hd & Hm & Hs). simpl in *. repeat split; assumption.
Qed.

(** A turn whose connection was established and whose receive loop
    returned (server close, error frame, end of stream) waits the
    initial delay, whatever the delay was before. *)
Lemma turn_connection_returned a d s :
  handshake a = None -> stream_raises (frames a) = false ->
  exists s',
    _ws_loop_turn a d s
    = (inr (Z.min (_reconnect_delay (fst s) * 2)
              (_max_reconnect_delay (fst s))), s')
    /\ slept (snd s') = slept (snd s) ++ [_reconnect_delay (fst s)]
    /\ _reconnect_delay (fst s') = _reconnect_delay (fst s)
    /\ _max_reconnect_delay (fst s') = _max_reconnect_delay (fst s).
Proof.
  intros H Hr. unfold _ws_loop_turn.
  unfold bind at 1. unfold try_except. unfold bind at 1.
  destruct (_ws_connect_outcome a s H) as ([self1 w1] & -> & Hd & Hm & Hs).
  rewrite Hr. unfold bind at 1. unfold get_self at 1. cbn [fst snd].
  unfold ret at 1.
  unfold bind at 1. rewrite in_world_run, logger_run. cbn [fst snd].
  unfold bind at 1. rewrite in_world_run. unfold sleep. cbn [fst snd].
  unfold bind, get_self, ret. cbn [fst snd] in *.
  eexists. split; [rewrite Hd, Hm; reflexivity|].
  cbn [fst snd slept]. rewrite Hs, Hd. repeat split; assumption.
Qed.

(** A turn whose connection was established and whose receive loop was
    left by an exception waits the delay the loop had reached, and
    doubles it: the statement that resets the delay is skipped. *)
Lemma turn_connection_raised a d s :
  handshake a = None -> stream_raises (frames a) = true ->
  exists s',
    _ws_loop_turn a d s
    = (inr (Z.min (d * 2) (_max_reconnect_delay (fst s))), s')
    /\ slept (snd s') = slept (snd s) ++ [d]
    /\ _reconnect_delay (fst s') = _reconnect_delay (fst s)
    /\ _max_reconnect_delay (fst s') = _max_reconnect_delay (fst s).
Proof.
  intros H Hr. unfold _ws_loop_turn.
  unfold bind at 1. unfold try_except. unfold bind at 1.
  destruct (_ws_connect_outcome a s H) as ([self1 w1] & -> & Hd & Hm & Hs).
  rewrite Hr.
  unfold bind at 1. rewrite in_world_run, logger_run. cbn [fst snd].
  unfold ret at 1.
  unfold bind at 1. rewrite in_world_run, logger_run. cbn [fst snd].
  unfold bind at 1. rewrite in_world_run. unfold sleep. cbn [fst snd].
  unfold bind, get_self, ret. cbn [fst snd] in *.
  eexists. split; [rewrite Hm; reflexivity|].
  cbn [fst snd slept]. rewrite Hs. repeat split; assumption.
Qed.

(** Starting from failure: 5, 10, 20, 40, 60, 60, 60, ... *)
Lemma waits_when_refused (n : nat) (self : t) (w : world) :
  _reconnect_delay self = 5%Z -> _max_reconnect_delay self = 60%Z ->
  waits (_ws_loop (repeat refused n) (self, w))
  = slept w ++ backoff 60 5 n.
Proof.
  intros Hd Hm. unfold _ws_loop, bind, get_self. cbn [fst snd].
  destruct (loop_refused (repeat refused n)) with (d := _reconnect_delay self)
    (self := self) (w := w) as (d' & w' & E & S).
  { apply Forall_forall. intros a Ha. apply repeat_spec in Ha. now subst. }
  unfold waits. rewrite E. cbn [fst snd].
  now rewrite S, repeat_length, Hd, Hm.
Qed.

Lemma backoff_seven :
  backoff 60 5 7 = [5; 10; 20; 40; 60; 60; 60]%Z.
Proof. reflexivity. Qed.

(** C3 (the code departs from the claim when a connection is left by
    an exception).  Three refused attempts, then a connection that is
    established and later receives a text frame that is not JSON, then a
    refused attempt: the waits are 5, 10, 20, 40, 60.  The wait after
    the established connection is 40, not 5.  When the same connection
    ends by a server close or by an error frame the wait after it is 5,
    and seven refusals in a row wait 5, 10, 20, 40, 60, 60, 60. *)
Theorem C3_no_reset_after_exception_in_stream :
  waits (_ws_loop [refused; refused; refused; garbled; refused]
           (fresh_adapter, quiet_world))
  = [5; 10; 20; 40; 60]%Z
  /\ waits (_ws_loop [refused; refused; refused; closed_by_server; refused]
              (fresh_adapter, quiet_world))
     = [5; 10; 20; 5; 10]%Z
  /\ waits (_ws_loop [refused; refused; refused; ended_by_error_frame;
                      refused]
              (fresh_adapter, quiet_world))
     = [5; 10; 20; 5; 10]%Z
  /\ waits (_ws_loop (repeat refused 7) (fresh_adapter, quiet_world))
     = [5; 10; 20; 40; 60; 60; 60]%Z.
Proof.
  repeat split; try (vm_compute; reflexivity).
Qed.

End Reconnection.

(* ================================================================== *)
(** * Further properties of the memory store *)

Section StoreInvariants.

Import ForumMemory.

Lemma keep_is_a_suffix (k : Z) (l : list MemoryItem.t) :
  exists dropped, l = dropped ++ keep k l.
Proof.
  unfold keep. destruct (_ >? _)%Z.
  - unfold slice_from. eexists. symmetry. apply firstn_skipn.
  - now exists [].
Qed.

Lemma forallb_skipn {A} (f : A -> bool) (n : nat) (l : list A) :
  forallb f l = true -> forallb f (skipn n l) = true.
Proof.
  intros H. rewrite <- (firstn_skipn n l), forallb_app in H.
  now apply andb_true_iff in H.
Qed.

Lemma forallb_firstn {A} (f : A -> bool) (n : nat) (l : list A) :
  forallb f l = true -> forallb f (firstn n l) = true.
Proof.
  intros H. rewrite <- (firstn_skipn n l), forallb_app in H.
  now apply andb_true_iff in H.
Qed.

Lemma forallb_keep (f : MemoryItem.t -> bool) (k : Z) l :
  forallb f l = true -> forallb f (keep k l) = true.
Proof.
  intros H. unfold keep. destruct (_ >? _)%Z; [|exact H].
  now apply forallb_skipn.
Qed.

Lemma in_firstn {A} (n : nat) (l : list A) (x : A) :
  In x (firstn n l) -> In x l.
Proof.
  intros H. rewrite <- (firstn_skipn n l). apply in_or_app. now left.
Qed.

(** The world [add_memory] leaves: the one [_save] leaves, with the debug
    line added. *)
Lemma add_memory_world memory_type content metadata now self w :
  let item := MemoryItem.mk memory_type content now (or_empty metadata) in
  let self' := set_memories self (appended self item) in
  add_memory memory_type content metadata now (self, w)
  = (inr tt,
     (self',
      snd (logger DEBUG (MemAdded memory_type (slice_to content 50))
             (snd (snd (_save (self', w))))))).
Proof.
  intros item self'. subst self'. unfold add_memory, appended, keep.
  fold item.
  unfold bind at 1. unfold get_self at 1. simpl.
  unfold bind at 1. unfold put_self at 1. simpl.
  unfold bind at 1. unfold get_self at 1. simpl.
  unfold bind at 1.
  destruct (Z.of_nat (length (_memories self ++ [item])) >? _max_items self)%Z;
    simpl; unfold bind at 1; unfold set_memories; cbn [_max_items];
    match goal with |- context [_save (?s, w)] =>
      destruct (_save_returns s w) as (w1 & E & Hs); rewrite E end;
    rewrite in_world_run; reflexivity.
Qed.

(** X1.  With a bound of at least one, the log after [add_memory] has
    [min (len + 1) max_items] items, hence never more than [max_items],
    whatever its length was before (a file may hold more) and whatever
    happens to the disk. *)
Theorem X1_add_memory_restores_the_bound
    memory_type content metadata now self w :
  (0 < _max_items self)%Z ->
  __len__ (fst (snd (add_memory memory_type content metadata now (self, w))))
  = Nat.min (S (__len__ self)) (Z.to_nat (_max_items self))
  /\ (Z.of_nat
        (__len__
           (fst (snd (add_memory memory_type content metadata now (self, w)))))
      <= _max_items self)%Z.
Proof.
  intros Hk.
  destruct (add_memory_returns memory_type content metadata now self w)
    as (w' & -> & _).
  unfold __len__. cbn [fst snd _memories set_memories].
  unfold appended. rewrite keep_pos by assumption.
  unfold last_n. rewrite length_skipn, length_app. cbn [length]. lia.
Qed.

Lemma X1_add_memory_restores_the_bound_witness :
  __len__
    (fst (snd (add_memory (lit "diary") (lit "late") None (at_minute 40)
                 (mk 4 ten_items, quiet_world))))
  = Nat.min (S (__len__ (mk 4 ten_items))) (Z.to_nat 4).
Proof.
  apply (X1_add_memory_restores_the_bound (lit "diary") (lit "late") None
           (at_minute 40) (mk 4 ten_items) quiet_world).
  reflexivity.
Defined.

(** X2.  Whatever the bound, zero and negative included, the log after
    [add_memory] is a suffix of the old log followed by the new item:
    items are only dropped from the old end, and what is kept is neither
    reordered nor altered. *)
Theorem X2_add_memory_only_drops_from_the_front
    memory_type content metadata now self w :
  exists dropped,
    _memories self
    ++ [MemoryItem.mk memory_type content now (or_empty metadata)]
    = dropped
      ++ log_of (add_memory memory_type content metadata now (self, w)).
Proof.
  destruct (add_memory_returns memory_type content metadata now self w)
    as (w' & -> & _).
  unfold log_of. cbn [fst snd _memories set_memories].
  apply keep_is_a_suffix.
Qed.

(** X3.  With a bound that is not negative, the item just added is what
    [get_memories(limit=1)] returns, and the first item of an unlimited
    query. *)
Theorem X3_new_item_is_the_newest
    memory_type content metadata now self w :
  (0 <= _max_items self)%Z ->
  let item := MemoryItem.mk memory_type content now (or_empty metadata) in
  let self' :=
    fst (snd (add_memory memory_type content metadata now (self, w))) in
  get_memories None (Some 1%Z) self' = [item]
  /\ hd_error (get_memories None None self') = Some item.
Proof.
  intros Hk item self'. subst self'.
  destruct (add_memory_returns memory_type content metadata now self w)
    as (w' & -> & _).
  cbn [fst snd]. fold item.
  destruct (appended_last self item Hk) as [older Ho].
  unfold get_memories. cbn [truthy_str truthy_int _memories set_memories].
  rewrite Ho. unfold slice_rev. rewrite rev_app_distr. simpl. split.
  - rewrite slice_to_nonneg by lia. reflexivity.
  - reflexivity.
Qed.

Lemma X3_new_item_is_the_newest_witness :
  get_memories None (Some 1%Z)
    (fst (snd (add_memory (lit "diary") (lit "late") None (at_minute 40)
                 (ten_store, quiet_world))))
  = [MemoryItem.mk (lit "diary") (lit "late") (at_minute 40) []].
Proof.
  apply (X3_new_item_is_the_newest (lit "diary") (lit "late") None
           (at_minute 40) ten_store quiet_world).
  discriminate.
Defined.

End StoreInvariants.

Section StoreAndDisk.

Import ForumMemory.

Lemma empty_log_encodes :
  json_encode (PList (map MemoryItem.to_dict [])) = inr (JArr []).
Proof. reflexivity. Qed.

(** X4.  [clear] empties the log in every world: the store then counts
    no item, its summary is the no-activity message for every limit and
    its thread context the no-activity message for every thread.  When
    the file operations succeed the disk then holds the empty array, and
    a store built from it is empty. *)
Theorem X4_clear_forgets_everything (self : t) (w : world) :
  (exists w',
      clear (self, w) = (inr tt, (set_memories self [], w'))
      /\ __len__ (set_memories self []) = 0%nat
      /\ (forall limit, get_summary limit (set_memories self []) = no_activity)
      /\ (forall thread_id,
             get_context_for_thread thread_id (set_memories self [])
             = no_thread_activity thread_id))
  /\ (faults w = [] ->
      exists w' w'',
        clear (self, w) = (inr tt, (set_memories self [], w'))
        /\ disk w' = Some (Document (JArr []))
        /\ forall max_items,
             __init__ max_items w' = (inr (mk max_items []), w'')).
Proof.
  split.
  - destruct (clear_returns self w) as (w' & E & _).
    exists w'. repeat split; try exact E.
    intros limit. unfold get_summary, get_memories.
    cbn [truthy_str truthy_int _memories set_memories slice_rev rev].
    destruct (negb (limit =? 0)%Z); [|reflexivity].
    unfold slice_to. now rewrite firstn_nil.
  - intros Hf. unfold clear.
    unfold bind at 1. unfold get_self at 1. cbn [fst snd].
    unfold bind at 1. unfold put_self at 1. cbn [fst snd].
    unfold bind at 1.
    rewrite (_save_quiet (set_memories self []) w (JArr []) Hf
               empty_log_encodes).
    rewrite in_world_run, logger_run. cbn [fst snd].
    do 2 eexists. split; [reflexivity|]. split; [reflexivity|].
    intros max_items. unfold __init__, bind, makedirs.
    rewrite io_op_quiet by reflexivity.
    unfold _load. unfold bind at 1. rewrite in_world_run.
    unfold path_exists. cbn [fst snd disk negb].
    unfold try_except, bind. rewrite in_world_run.
    rewrite (json_load_quiet (JArr [])) by reflexivity.
    cbn. reflexivity.
Qed.

Lemma X4_clear_forgets_everything_witness :
  exists w' w'',
    clear (ten_store, quiet_world) = (inr tt, (set_memories ten_store [], w'))
    /\ disk w' = Some (Document (JArr []))
    /\ forall max_items, __init__ max_items w' = (inr (mk max_items []), w'').
Proof.
  apply (proj2 (X4_clear_forgets_everything ten_store quiet_world)).
  reflexivity.
Defined.

(** X5.  Write-through: when the file operations succeed and the items
    are JSON-representable, a store built from the disk right after an
    [add_memory] holds exactly the log the running store holds, the new
    item included and the evicted ones gone. *)
Theorem X5_added_item_survives_a_restart
    memory_type content metadata now self w max_items :
  faults w = [] ->
  forallb item_valid (_memories self) = true ->
  forallb item_json (_memories self) = true ->
  item_valid (MemoryItem.mk memory_type content now (or_empty metadata))
  = true ->
  item_json (MemoryItem.mk memory_type content now (or_empty metadata))
  = true ->
  exists self' w' w'',
    add_memory memory_type content metadata now (self, w)
    = (inr tt, (self', w'))
    /\ _memories self'
       = appended self
           (MemoryItem.mk memory_type content now (or_empty metadata))
    /\ __init__ max_items w' = (inr (mk max_items (_memories self')), w'').
Proof.
  intros Hf Hv Hj Hiv Hij.
  set (item := MemoryItem.mk memory_type content now (or_empty metadata)) in *.
  assert (Hv' : forallb item_valid (appended self item) = true).
  { apply forallb_keep. rewrite forallb_app, Hv. simpl. now rewrite Hiv. }
  assert (Hj' : forallb item_json (appended self item) = true).
  { apply forallb_keep. rewrite forallb_app, Hj. simpl. now rewrite Hij. }
  destruct (log_encodes (appended self item) Hv' Hj') as (j & Ej & Dj).
  rewrite add_memory_world. fold item.
  rewrite (_save_quiet (set_memories self (appended self item)) w j Hf Ej).
  rewrite logger_run. cbn [fst snd disk faults logs slept].
  match goal with |- context [(inr tt, (_, ?w1))] =>
    destruct (__init___quiet max_items w1 j (appended self item)
                eq_refl eq_refl Dj Hv') as [w'' E] end.
  do 3 eexists. split; [reflexivity|]. split; [reflexivity|]. exact E.
Qed.

Lemma X5_added_item_survives_a_restart_witness :
  exists self' w' w'',
    add_memory (lit "diary") (lit "late") None (at_minute 40)
      (mk 4 ten_items, quiet_world)
    = (inr tt, (self', w'))
    /\ _memories self'
       = appended (mk 4 ten_items)
           (MemoryItem.mk (lit "diary") (lit "late") (at_minute 40) [])
    /\ __init__ 4 w' = (inr (mk 4 (_memories self')), w'').
Proof.
  apply (X5_added_item_survives_a_restart (lit "diary") (lit "late") None
           (at_minute 40) (mk 4 ten_items) quiet_world 4); reflexivity.
Defined.

End StoreAndDisk.

Section MoreQueries.

Import ForumMemory.

Lemma get_memories_shape memory_type limit self :
  exists n,
    get_memories memory_type limit self
    = firstn n (get_memories memory_type None self).
Proof.
  unfold get_memories. cbn [truthy_int].
  destruct limit as [k|]; cbn [truthy_int].
  - destruct (negb (k =? 0)%Z).
    + unfold slice_to. eauto.
    + eexists. symmetry. apply firstn_all.
  - eexists. symmetry. apply firstn_all.
Qed.

Lemma get_memories_unlimited_in memory_type self m :
  In m (get_memories memory_type None self) ->
  In m (_memories self)
  /\ (truthy_str memory_type = true ->
      Some (MemoryItem.memory_type m) = memory_type).
Proof.
  unfold get_memories, slice_rev. cbn [truthy_int].
  destruct (truthy_str memory_type) eqn:Et.
  - intros H. apply in_rev, filter_In in H. destruct H as [Hin Heq].
    split; [exact Hin|]. intros _.
    destruct memory_type as [kind|]; [|discriminate].
    apply str_eqb_eq in Heq. now rewrite Heq.
  - intros H. apply in_rev in H. split; [exact H|discriminate].
Qed.

(** X6.  Whatever is asked, [get_memories] returns items of the log only;
    with a non-empty kind every returned item has that kind, also under
    a limit; and a positive limit [k] bounds the number of items
    returned by [k]. *)
Theorem X6_queries_filter_and_bound (self : t) :
  (forall memory_type limit m,
      In m (get_memories memory_type limit self) -> In m (_memories self))
  /\ (forall kind limit m,
         kind <> lit "" ->
         In m (get_memories (Some kind) limit self) ->
         MemoryItem.memory_type m = kind)
  /\ (forall memory_type k,
         (0 < k)%Z ->
         (length (get_memories memory_type (Some k) self) <= Z.to_nat k)%nat).
Proof.
  repeat split.
  - intros memory_type limit m H.
    destruct (get_memories_shape memory_type limit self) as [n En].
    rewrite En in H. apply in_firstn in H.
    now apply get_memories_unlimited_in in H.
  - intros kind limit m Hk H.
    destruct (get_memories_shape (Some kind) limit self) as [n En].
    rewrite En in H. apply in_firstn in H.
    apply get_memories_unlimited_in in H. destruct H as [_ H].
    destruct kind as [|c kind]; [now contradiction Hk|].
    specialize (H eq_refl). now injection H.
  - intros memory_type k Hk. unfold get_memories at 1. cbn [truthy_int].
    destruct (Z.eqb_spec k 0); [lia|]. cbn [negb].
    rewrite slice_to_nonneg by lia. rewrite length_firstn. lia.
Qed.

Lemma X6_queries_filter_and_bound_witness :
  (length (get_memories (Some (lit "replied")) (Some 3%Z) ten_store)
   <= Z.to_nat 3)%nat.
Proof.
  apply (X6_queries_filter_and_bound ten_store). reflexivity.
Defined.

(** X7.  A negative limit [-k] does not bound the result by a count: it
    removes the [k] oldest items from what the same query returns
    without limit, and returns nothing when there are at most [k]. *)
Theorem X7_negative_limit_drops_the_oldest memory_type (k : Z) self :
  (0 < k)%Z ->
  get_memories memory_type (Some (- k)%Z) self
  = firstn (length (get_memories memory_type None self) - Z.to_nat k)
      (get_memories memory_type None self)
  /\ ((length (get_memories memory_type None self) <= Z.to_nat k)%nat ->
      get_memories memory_type (Some (- k)%Z) self = []).
Proof.
  intros Hk.
  assert (E : get_memories memory_type (Some (- k)%Z) self
              = firstn (length (get_memories memory_type None self)
                        - Z.to_nat k)
                  (get_memories memory_type None self)).
  { unfold get_memories. cbn [truthy_int].
    destruct (Z.eqb_spec (- k) 0); [lia|]. cbn [negb].
    unfold slice_to, clamp_index.
    destruct (Z.ltb_spec (- k) 0); [|lia].
    f_equal. lia. }
  split; [exact E|].
  intros Hl. rewrite E.
  replace (length (get_memories memory_type None self) - Z.to_nat k)%nat
    with 0%nat by lia.
  reflexivity.
Qed.

Lemma X7_negative_limit_drops_the_oldest_witness :
  get_memories None (Some (- 8)%Z) ten_store
  = firstn (length (get_memories None None ten_store) - Z.to_nat 8)
      (get_memories None None ten_store).
Proof.
  exact (proj1 (X7_negative_limit_drops_the_oldest None 8 ten_store
                  eq_refl)).
Defined.

(** *** Counting the lines of a block *)

Lemma breaks_join_lines (h : pystr) (l : list pystr) :
  breaks h = 0%nat -> Forall (fun x => breaks x = 0%nat) l ->
  breaks (join newline (h :: l)) = length l.
Proof.
  revert h. induction l as [|x l IH]; intros h Hh Hl.
  - exact Hh.
  - inversion Hl as [|? ? Hx Hr]; subst.
    change (join newline (h :: x :: l))
      with (h ++ newline ++ join newline (x :: l)).
    rewrite !breaks_app, Hh, (IH x Hx Hr). reflexivity.
Qed.

Lemma summary_lines_have_no_break (items : list MemoryItem.t) :
  Forall (fun m => breaks (MemoryItem.content m) = 0%nat) items ->
  Forall (fun x => breaks x = 0%nat) (map summary_line items).
Proof.
  induction 1 as [|m l Hm _ IH]; simpl; constructor; [|exact IH].
  now rewrite breaks_summary_line.
Qed.

Lemma Forall_firstn {A} (P : A -> Prop) (n : nat) (l : list A) :
  Forall P l -> Forall P (firstn n l).
Proof.
  intros H. apply Forall_forall. intros x Hx.
  apply in_firstn in Hx. revert x Hx. now apply Forall_forall.
Qed.

(** X8.  On a store that is not empty, for a positive limit and contents
    without line break, the summary has one header line and one line per
    item shown: [1 + min limit len] lines. *)
Theorem X8_summary_has_one_line_per_item (limit : Z) (self : t) :
  (0 < limit)%Z ->
  _memories self <> [] ->
  Forall (fun m => breaks (MemoryItem.content m) = 0%nat) (_memories self) ->
  count_lines (get_summary limit self)
  = S (Nat.min (Z.to_nat limit) (length (_memories self))).
Proof.
  intros Hl Hne Hb.
  assert (Hitems : get_memories None (Some limit) self
                   = firstn (Z.to_nat limit) (rev (_memories self))).
  { unfold get_memories. cbn [truthy_str truthy_int].
    destruct (Z.eqb_spec limit 0); [lia|]. cbn [negb].
    now rewrite slice_to_nonneg by lia. }
  unfold get_summary. rewrite Hitems.
  destruct (firstn (Z.to_nat limit) (rev (_memories self))) as [|x r] eqn:E.
  - exfalso. apply (f_equal (@length _)) in E.
    rewrite length_firstn, length_rev in E. simpl in E.
    destruct (_memories self); [congruence|simpl in E; lia].
  - rewrite count_lines_breaks, breaks_join_lines.
    + rewrite length_map, <- E, length_firstn, length_rev. reflexivity.
    + reflexivity.
    + apply summary_lines_have_no_break. rewrite <- E.
      apply Forall_firstn, Forall_rev, Hb.
Qed.

Lemma X8_summary_has_one_line_per_item_witness :
  count_lines (get_summary 25 ten_store)
  = S (Nat.min (Z.to_nat 25) (length (_memories ten_store))).
Proof.
  apply X8_summary_has_one_line_per_item.
  - reflexivity.
  - discriminate.
  - repeat constructor.
Defined.

Lemma summary_block_not_no_activity (x : MemoryItem.t) r :
  join newline (summary_header :: map summary_line (x :: r)) <> no_activity.
Proof.
  change (join newline (summary_header :: map summary_line (x :: r)))
    with (summary_header
          ++ newline ++ join newline (map summary_line (x :: r))).
  apply summary_header_not_no_activity.
Qed.

(** X9.  For a limit that is not negative the summary is the no-activity
    message exactly when the store is empty (a limit of zero shows every
    item).  For a negative limit [-k] a store of at most [k] items gives
    the no-activity message although it is not empty. *)
Theorem X9_when_the_summary_says_nothing (limit : Z) (self : t) :
  ((0 <= limit)%Z ->
   (get_summary limit self = no_activity <-> _memories self = []))
  /\ ((limit < 0)%Z ->
      (Z.of_nat (length (_memories self)) <= - limit)%Z ->
      get_summary limit self = no_activity).
Proof.
  split.
  - intros Hl. split.
    + intros H. destruct (_memories self) as [|m l] eqn:Em; [reflexivity|].
      exfalso. unfold get_summary in H.
      destruct (get_memories None (Some limit) self) as [|x r] eqn:E.
      * apply (f_equal (@length _)) in E. revert E.
        unfold get_memories. cbn [truthy_str truthy_int].
        rewrite Em. unfold slice_rev.
        destruct (Z.eqb_spec limit 0); cbn [negb].
        -- rewrite length_rev. discriminate.
        -- rewrite slice_to_nonneg, length_firstn, length_rev by lia.
           simpl. lia.
      * now apply summary_block_not_no_activity in H.
    + intros He. unfold get_summary, get_memories. rewrite He.
      cbn [truthy_str truthy_int slice_rev rev].
      destruct (negb (limit =? 0)%Z); [|reflexivity].
      unfold slice_to. now rewrite firstn_nil.
  - intros Hl Hlen. unfold get_summary, get_memories.
    cbn [truthy_str truthy_int].
    destruct (Z.eqb_spec limit 0); [lia|]. cbn [negb].
    unfold slice_to, clamp_index, slice_rev.
    destruct (Z.ltb_spec limit 0); [|lia].
    rewrite length_rev.
    replace (Z.to_nat (Z.max (Z.of_nat (length (_memories self)) + limit) 0))
      with 0%nat by lia.
    reflexivity.
Qed.

Lemma X9_when_the_summary_says_nothing_witness :
  get_summary (-10) ten_store = no_activity
  /\ (get_summary 0 ten_store = no_activity <-> _memories ten_store = []).
Proof.
  split.
  - apply (proj2 (X9_when_the_summary_says_nothing (-10) ten_store)).
    + reflexivity.
    + simpl. lia.
  - apply (proj1 (X9_when_the_summary_says_nothing 0 ten_store)). lia.
Defined.

End MoreQueries.

(** ** The decimal writing of integers *)

Section DecimalStrings.








End DecimalStrings.

Section ThreadContext.

Import ForumMemory.








End ThreadContext.

(** * Further properties of loading *)

Section Loading.

Import ForumMemory.

(** X11.  A missing file is an empty store, not an error: when the
    directory can be made, the constructor returns a store with an empty
    log, creates no file and logs nothing. *)
Theorem X11_missing_file_is_an_empty_store (max_items : Z) (w : world) :
  disk w = None ->
  hd false (faults w) = false ->
  exists w',
    __init__ max_items w = (inr (mk max_items []), w')
    /\ disk w' = None
    /\ logs w' = logs w.
Proof.
  intros Hd Hf. destruct w as [d f lg sl]. simpl in Hd, Hf. subst d.
  unfold __init__, bind, makedirs, io_op. cbn [faults].
  destruct f as [|[|] fs]; [|discriminate|];
    cbn [disk logs slept];
    unfold _load; unfold bind at 1; rewrite in_world_run;
    unfold path_exists; cbn [fst snd disk negb];
    eexists; repeat split.
Qed.

Lemma X11_missing_file_is_an_empty_store_witness :
  exists w',
    __init__ 50 quiet_world = (inr (mk 50 []), w')
    /\ disk w' = None
    /\ logs w' = logs quiet_world.
Proof.
  apply X11_missing_file_is_an_empty_store; reflexivity.
Defined.




(** X13.  [from_dict] needs the keys [memory_type], [content] and
    [timestamp]: on a dict that lacks one of them it raises [KeyError],
    whatever else the dict holds; on a value that is not a dict it raises
    [TypeError]. *)
Theorem X13_from_dict_needs_three_keys :
  (forall d : pydict,
      has_key d (lit "memory_type") = false
      \/ has_key d (lit "content") = false
      \/ has_key d (lit "timestamp") = false ->
      MemoryItem.from_dict (PDict d) = inl KeyError)
  /\ (forall v : pyval,
         (forall d, v <> PDict d) ->
         MemoryItem.from_dict v = inl TypeError).
Proof.
  split.
  - intros d H. unfold MemoryItem.from_dict, subscript, has_key in *.
    destruct (dict_get d (lit "memory_type")); [|reflexivity].
    destruct (dict_get d (lit "content")); [|reflexivity].
    destruct (dict_get d (lit "timestamp")); [|reflexivity].
    destruct H as [H|[H|H]]; discriminate H.
  - intros v H. destruct v; try reflexivity. now contradiction (H d).
Qed.

Lemma X13_from_dict_needs_three_keys_witness :
  MemoryItem.from_dict (json_decode entry_without_content) = inl KeyError.
Proof.
  apply (proj1 X13_from_dict_needs_three_keys). right. left. reflexivity.
Defined.



(** X15.  [from_dict] undoes [to_dict] on every item, whatever its
    metadata (tuples and byte strings included): what is lost in a
    round trip through the disk is lost by JSON, not by these two. *)
Theorem X15_from_dict_undoes_to_dict (m : MemoryItem.t) :
  datetime.valid (MemoryItem.timestamp m) = true ->
  MemoryItem.from_dict (MemoryItem.to_dict m) = inr m.
Proof. apply from_dict_to_dict. Qed.

Lemma X15_from_dict_undoes_to_dict_witness :
  MemoryItem.from_dict (MemoryItem.to_dict tagged_item) = inr tagged_item.
Proof. apply X15_from_dict_undoes_to_dict. reflexivity. Defined.

End Loading.

(* ================================================================== *)
(** * Further properties of the dispatch *)

Section Dispatch.

Import AstrBookAdapter.

Lemma _handle_notification_event data tk self w :
  exists w',
    _handle_notification data tk (self, w)
    = (inr tt,
       (notified self (notification_item data tk)
          (notification_event data tk self), w'))
    /\ slept w' = slept w.
Proof.
  unfold _handle_notification, notification_item, notified,
    notification_event.
  unfold bind at 1. rewrite in_world_run, logger_run. cbn [fst snd].
  unfold bind at 1.
  destruct (opt_str_eqb (type_ data) (lit "mention"));
    rewrite in_memory_run;
    match goal with |- context [ForumMemory.add_memory ?a ?b ?c ?d ?s] =>
      let w1 := fresh "w" in
      destruct (add_memory_returns a b c d (fst s) (snd s))
        as (w1 & E & Hs);
      cbn [fst snd] in E; rewrite E
    end;
    cbn [fst snd];
    unfold bind, get_self, commit_event, bind, get_self, put_self;
    cbn [fst snd ForumMemory.or_empty notification_metadata];
    eexists; (split; [reflexivity|exact Hs]).
Qed.

Lemma notifies_cases data :
  notifies data = true ->
  In (type_ data)
     [Some (lit "mention"); Some (lit "reply"); Some (lit "sub_reply")].
Proof.
  unfold notifies, opt_str_eqb. destruct (type_ data) as [s|]; [|discriminate].
  rewrite !orb_true_iff, !str_eqb_eq.
  intros [[->| ->]| ->]; simpl; auto.
Qed.


(** X17.  A frame whose type is not [connected], [reply], [sub_reply],
    [mention] or [new_thread] (a [pong], an unknown type, no type at all)
    is ignored: the adapter, its store and its queue are unchanged, and
    the world only gains the debug line. *)
Theorem X17_other_frames_are_ignored data tk (self : t) (w : world) :
  recognised data = false ->
  _handle_ws_message data tk (self, w)
  = (inr tt,
     (self,
      mkWorld (disk w) (faults w)
        (logs w ++ [(DEBUG, WsReceived (type_ data))]) (slept w))).
Proof.
  unfold recognised, notifies. rewrite !orb_false_iff.
  intros [[Hc [[Hr Hs] Hm]] Hn].
  unfold _handle_ws_message.
  unfold bind at 1. rewrite in_world_run, logger_run. cbn [fst snd].
  rewrite Hc, Hr, Hs, Hm, Hn.
  destruct (opt_str_eqb (type_ data) (lit "pong")); reflexivity.
Qed.

Lemma X17_other_frames_are_ignored_witness :
  _handle_ws_message
    (mkData (Some (lit "pong")) None None None None None None None None None)
    sample_tick (fresh_adapter, quiet_world)
  = (inr tt,
     (fresh_adapter,
      mkWorld (disk quiet_world) (faults quiet_world)
        (logs quiet_world ++ [(DEBUG, WsReceived (Some (lit "pong")))])
        (slept quiet_world))).
Proof.
  apply (X17_other_frames_are_ignored
           (mkData (Some (lit "pong")) None None None None None None None
              None None)).
  reflexivity.
Defined.

Lemma connected_run data tk self w :
  type_ data = Some (lit "connected") ->
  _handle_ws_message data tk (self, w)
  = (inr tt,
     (set_bot_user_id self (user_id data),
      mkWorld (disk w) (faults w)
        (logs w ++ [ (DEBUG, WsReceived (type_ data));
                     (INFO, ConnectedAs (user_id data)) ])
        (slept w))).
Proof.
  intros Ht. unfold _handle_ws_message.
  unfold bind at 1. rewrite in_world_run, logger_run. cbn [fst snd].
  rewrite Ht.
  change (opt_str_eqb (Some (lit "connected")) (lit "connected")) with true.
  cbv iota. unfold bind, get_self, put_self. cbn [fst snd].
  rewrite in_world_run, logger_run. cbn [fst snd disk faults logs slept].
  now rewrite <- app_assoc.
Qed.

(** X18.  The identity a [connected] frame assigns is the one later events
    carry: after a [connected] frame with [user_id = u] and then a
    notification, the adapter holds [u] and the committed event has
    [self_id = str(u)]; it is ["astrbook"] when [u] is absent or zero.
    The [connected] frame itself writes no memory and commits no
    event. *)
Theorem X18_connected_identity_is_used_by_events
    cdata tk1 ndata tk2 (self : t) (w : world) :
  type_ cdata = Some (lit "connected") ->
  notifies ndata = true ->
  exists self' w' ev,
    (_handle_ws_message cdata tk1 ;; _handle_ws_message ndata tk2) (self, w)
    = (inr tt, (self', w'))
    /\ bot_user_id self' = user_id cdata
    /\ event_queue self' = event_queue self ++ [ev]
    /\ ev_self_id ev = str_or (user_id cdata) (lit "astrbook")
    /\ ForumMemory._memories (memory self')
       = appended (memory self) (notification_item ndata tk2).
Proof.
  intros Hc Hn. unfold bind at 1.
  rewrite (connected_run cdata tk1 self w Hc).
  rewrite (dispatch_notification ndata tk2 (notifies_cases ndata Hn)).
  unfold bind at 1. rewrite in_world_run, logger_run. cbn [fst snd].
  match goal with |- context [_handle_notification ndata tk2 (?a, ?w1)] =>
    destruct (_handle_notification_event ndata tk2 a w1) as (w' & -> & _)
  end.
  do 3 eexists. split; [reflexivity|]. repeat split.
Qed.

Lemma X18_connected_identity_is_used_by_events_witness :
  exists self' w' ev,
    (_handle_ws_message
       (mkData (Some (lit "connected")) (Some 9%Z) (Some (lit "bot")) None
          None None None None None None) sample_tick ;;
     _handle_ws_message short_reply sample_tick) (fresh_adapter, quiet_world)
    = (inr tt, (self', w'))
    /\ bot_user_id self' = Some 9%Z
    /\ event_queue self' = event_queue fresh_adapter ++ [ev]
    /\ ev_self_id ev = str_or (Some 9%Z) (lit "astrbook")
    /\ ForumMemory._memories (memory self')
       = appended (memory fresh_adapter)
           (notification_item short_reply sample_tick).
Proof.
  apply (X18_connected_identity_is_used_by_events
           (mkData (Some (lit "connected")) (Some 9%Z) (Some (lit "bot"))
              None None None None None None None));
    reflexivity.
Defined.

(** X19.  A [new_thread] frame is informational: it stores one item of
    kind [new_thread] naming the title and the author (["unknown"] when
    absent), with metadata [thread_id], [thread_title] and [author], and
    commits no event; the queue and the identity are unchanged. *)
Theorem X19_new_thread_writes_memory_only data tk (self : t) (w : world) :
  type_ data = Some (lit "new_thread") ->
  let title := get_or (thread_title data) (lit "") in
  let who := get_or (author data) (lit "unknown") in
  let item :=
    MemoryItem.mk (lit "new_thread")
      (lit "有新帖发布：《" ++ title ++ lit "》by " ++ who)
      (now tk)
      [ (lit "thread_id", opt_int (thread_id data));
        (lit "thread_title", PStr title);
        (lit "author", PStr who) ] in
  exists w',
    _handle_ws_message data tk (self, w)
    = (inr tt,
       (set_memory self
          (ForumMemory.set_memories (memory self)
             (appended (memory self) item)),
        w'))
    /\ event_queue
         (set_memory self
            (ForumMemory.set_memories (memory self)
               (appended (memory self) item)))
       = event_queue self.
Proof.
  intros Ht title who item. unfold _handle_ws_message.
  unfold bind at 1. rewrite in_world_run, logger_run. cbn [fst snd].
  rewrite Ht.
  change (opt_str_eqb (Some (lit "new_thread")) (lit "connected")) with false.
  change (opt_str_eqb (Some (lit "new_thread")) (lit "pong")) with false.
  change (opt_str_eqb (Some (lit "new_thread")) (lit "reply")) with false.
  change (opt_str_eqb (Some (lit "new_thread")) (lit "sub_reply")) with false.
  change (opt_str_eqb (Some (lit "new_thread")) (lit "mention")) with false.
  change (opt_str_eqb (Some (lit "new_thread")) (lit "new_thread")) with true.
  cbv iota. cbn [orb].
  unfold _handle_new_thread.
  unfold bind at 1. rewrite in_world_run, logger_run. cbn [fst snd].
  rewrite in_memory_run.
  match goal with |- context [ForumMemory.add_memory ?a ?b ?c ?d ?s] =>
    destruct (add_memory_returns a b c d (fst s) (snd s)) as (w1 & E & _);
    cbn [fst snd] in E; rewrite E
  end.
  cbn [fst snd]. eexists. split; reflexivity.
Qed.

Lemma X19_new_thread_writes_memory_only_witness :
  exists w',
    _handle_ws_message
      (mkData (Some (lit "new_thread")) None None (Some 5%Z)
         (Some (lit "News")) None None None None None)
      sample_tick (fresh_adapter, quiet_world)
    = (inr tt,
       (set_memory fresh_adapter
          (ForumMemory.mk 50
             [ MemoryItem.mk (lit "new_thread")
                 (lit "有新帖发布：《News》by unknown") (at_minute 15)
                 [ (lit "thread_id", PInt 5);
                   (lit "thread_title", PStr (lit "News"));
                   (lit "author", PStr (lit "unknown")) ] ]),
        w')).
Proof.
  destruct (X19_new_thread_writes_memory_only
              (mkData (Some (lit "new_thread")) None None (Some 5%Z)
                 (Some (lit "News")) None None None None None)
              sample_tick fresh_adapter quiet_world eq_refl)
    as (w' & E & _).
  exists w'. exact E.
Defined.

End Dispatch.

Section Events.

Import AstrBookAdapter.



Lemma newest_of_snoc (mem : ForumMemory.t) older item :
  ForumMemory._memories mem = older ++ [item] ->
  ForumMemory.get_memories None (Some 1%Z) mem = [item].
Proof.
  intros H. unfold ForumMemory.get_memories.
  cbn [ForumMemory.truthy_str ForumMemory.truthy_int].
  rewrite H. unfold slice_rev. rewrite rev_app_distr. reflexivity.
Qed.

(** X21.  What the adapter shows the reasoning layer follows what it
    receives: with a bound that is not negative, right after a
    notification [get_memory_summary(1)] is the header followed by the
    entry of that notification. *)
Theorem X21_summary_shows_the_last_notification
    data tk (self : t) (w : world) :
  notifies data = true ->
  (0 <= ForumMemory._max_items (memory self))%Z ->
  exists self' w',
    _handle_ws_message data tk (self, w) = (inr tt, (self', w'))
    /\ get_memory_summary 1 self'
       = join newline
           [ ForumMemory.summary_header;
             ForumMemory.summary_line (notification_item data tk) ].
Proof.
  intros Hn Hk.
  rewrite (dispatch_notification data tk (notifies_cases data Hn)).
  unfold bind at 1. rewrite in_world_run, logger_run. cbn [fst snd].
  match goal with |- context [_handle_notification data tk (?a, ?w1)] =>
    destruct (_handle_notification_event data tk a w1) as (w' & -> & _)
  end.
  do 2 eexists. split; [reflexivity|].
  unfold get_memory_summary, ForumMemory.get_summary.
  destruct (appended_last (memory self) (notification_item data tk) Hk)
    as [older Ho].
  rewrite (newest_of_snoc _ older (notification_item data tk)).
  - reflexivity.
  - rewrite memory_notified. exact Ho.
Qed.

Lemma X21_summary_shows_the_last_notification_witness :
  exists self' w',
    _handle_ws_message short_reply sample_tick (fresh_adapter, quiet_world)
    = (inr tt, (self', w'))
    /\ get_memory_summary 1 self'
       = join newline
           [ ForumMemory.summary_header;
             ForumMemory.summary_line
               (notification_item short_reply sample_tick) ].
Proof.
  apply X21_summary_shows_the_last_notification.
  - reflexivity.
  - discriminate.
Defined.

End Events.

(* ================================================================== *)
(** * The stream of one connection *)

Section Stream.

Import AstrBookAdapter.

(** X22.  The receive loop stops at the first [CLOSED] or [ERROR]
    message and at the first text frame that does not decode: whatever
    the socket holds after it is never read, so the run is the run over
    the frames up to and including that message. *)
Theorem X22_nothing_is_read_after_the_stream_ends pre tk rest :
  forall s,
    receive (pre ++ (MsgCLOSED, tk) :: rest) s
    = receive (pre ++ [(MsgCLOSED, tk)]) s
    /\ receive (pre ++ (MsgERROR, tk) :: rest) s
       = receive (pre ++ [(MsgERROR, tk)]) s
    /\ receive (pre ++ (MsgTEXT None, tk) :: rest) s
       = receive (pre ++ [(MsgTEXT None, tk)]) s.
Proof.
  induction pre as [|[[[data|]| | |] tk'] pre IH]; intros s; simpl;
    try (repeat split; reflexivity).
  - unfold bind at 1 3 5 7 9 11. unfold ret at 1 2 3 4 5 6.
    unfold bind at 1 2 3 4 5 6.
    destruct (_handle_ws_message data tk' s) as [[e|[]] s1];
      [repeat split; reflexivity|apply IH].
  - apply IH.
Qed.




(** X24.  [_ws_connect] never leaves the connection flag raised: once
    the handshake has succeeded the flag is [False] when the method is
    left, whether the stream ended, was closed, or was left by an
    exception; when the handshake is refused the flag is what it was. *)
Theorem X24_connection_flag_is_lowered_on_exit a s :
  _ws_connected (fst (snd (_ws_connect a s)))
  = match handshake a with
    | None => false
    | Some _ => _ws_connected (fst s)
    end.
Proof.
  destruct s as [self w].
  destruct (handshake a) as [e|] eqn:H.
  - now rewrite (_ws_connect_refused a e self w H).
  - unfold _ws_connect.
    unfold bind at 1. rewrite in_world_run, logger_run. cbn [fst snd].
    rewrite H.
    unfold bind at 1. unfold get_self at 1. cbn [fst snd].
    unfold bind at 1. unfold put_self at 1. cbn [fst snd].
    unfold bind at 1. rewrite in_world_run, logger_run. cbn [fst snd].
    unfold try_finally.
    match goal with |- context [receive (frames a) ?s0] =>
      destruct (receive (frames a) s0) as [r [self1 w1]] end.
    unfold bind, get_self, put_self. cbn [fst snd]. reflexivity.
Qed.

End Stream.

(* ================================================================== *)
(** * The reconnection loop *)

Section Backoff.

Import AstrBookAdapter.

Local Open Scope Z_scope.

(** One turn, whatever the attempt does: it returns, waits once, and
    both the wait and the next delay lie between the initial delay and
    the maximum. *)
Lemma turn_bounded a d s :
  0 < _reconnect_delay (fst s) ->
  _reconnect_delay (fst s) <= _max_reconnect_delay (fst s) ->
  _reconnect_delay (fst s) <= d <= _max_reconnect_delay (fst s) ->
  exists d' s' x,
    _ws_loop_turn a d s = (inr d', s')
    /\ slept (snd s') = slept (snd s) ++ [x]
    /\ _reconnect_delay (fst s) <= x <= _max_reconnect_delay (fst s)
    /\ _reconnect_delay (fst s) <= d' <= _max_reconnect_delay (fst s)
    /\ _reconnect_delay (fst s') = _reconnect_delay (fst s)
    /\ _max_reconnect_delay (fst s') = _max_reconnect_delay (fst s).
Proof.
  intros Hp Hle Hd.
  destruct (handshake a) as [e|] eqn:H.
  - destruct s as [self w].
    destruct (turn_refused a e d self w H) as (w' & E & S).
    cbn [fst snd] in *.
    exists (Z.min (d * 2) (_max_reconnect_delay self)), (self, w'), d.
    cbn [fst snd]. repeat split; try assumption; try lia.
  - destruct (stream_raises (frames a)) eqn:R.
    + destruct (turn_connection_raised a d s H R) as (s' & E & S & Hd' & Hm').
      exists (Z.min (d * 2) (_max_reconnect_delay (fst s))), s', d.
      repeat split; try assumption; try lia.
    + destruct (turn_connection_returned a d s H R)
        as (s' & E & S & Hd' & Hm').
      exists (Z.min (_reconnect_delay (fst s) * 2)
                (_max_reconnect_delay (fst s))), s',
        (_reconnect_delay (fst s)).
      repeat split; try assumption; try lia.
Qed.

Lemma loop_bounded atts : forall d s,
  0 < _reconnect_delay (fst s) ->
  _reconnect_delay (fst s) <= _max_reconnect_delay (fst s) ->
  _reconnect_delay (fst s) <= d <= _max_reconnect_delay (fst s) ->
  exists d' s' ws,
    _ws_loop_from atts d s = (inr d', s')
    /\ slept (snd s') = slept (snd s) ++ ws
    /\ length ws = length atts
    /\ Forall (fun x => _reconnect_delay (fst s) <= x
                        <= _max_reconnect_delay (fst s)) ws.
Proof.
  induction atts as [|a atts IH]; intros d s Hp Hle Hd; simpl.
  - exists d, s, []. repeat split; [now rewrite app_nil_r|constructor].
  - destruct (turn_bounded a d s Hp Hle Hd)
      as (d1 & s1 & x & E1 & S1 & Hx & Hd1 & Er & Em).
    unfold bind. rewrite E1.
    destruct (IH d1 s1) as (d' & s' & ws & E2 & S2 & L2 & F2);
      try (rewrite ?Er, ?Em; assumption).
    exists d', s', (x :: ws). split; [exact E2|]. split; [|split].
    + rewrite S2, S1, <- app_assoc. reflexivity.
    + simpl. now rewrite L2.
    + constructor; [exact Hx|]. rewrite Er, Em in F2. exact F2.
Qed.

(** X25.  With a positive initial delay that does not exceed the
    maximum, the reconnection loop never propagates an exception,
    whatever each attempt does (refused, closed, error frame, frame
    that is not JSON); it waits exactly once per attempt, and every wait
    lies between the initial delay and the maximum. *)
Theorem X25_reconnection_never_raises_and_waits_are_bounded atts s :
  0 < _reconnect_delay (fst s) ->
  _reconnect_delay (fst s) <= _max_reconnect_delay (fst s) ->
  exists d' s' ws,
    _ws_loop atts s = (inr d', s')
    /\ slept (snd s') = slept (snd s) ++ ws
    /\ length ws = length atts
    /\ Forall (fun x => _reconnect_delay (fst s) <= x
                        <= _max_reconnect_delay (fst s)) ws.
Proof.
  intros Hp Hle. unfold _ws_loop, bind, get_self. cbn [fst snd].
  apply loop_bounded; try assumption. lia.
Qed.

Lemma X25_reconnection_never_raises_and_waits_are_bounded_witness :
  exists d' s' ws,
    _ws_loop [refused; garbled; closed_by_server; refused]
      (fresh_adapter, quiet_world) = (inr d', s')
    /\ slept (snd s') = slept (snd (fresh_adapter, quiet_world)) ++ ws
    /\ length ws
       = length [refused; garbled; closed_by_server; refused]
    /\ Forall (fun x => _reconnect_delay (fst (fresh_adapter, quiet_world))
                        <= x
                        <= _max_reconnect_delay
                             (fst (fresh_adapter, quiet_world))) ws.
Proof.
  apply (X25_reconnection_never_raises_and_waits_are_bounded
           [refused; garbled; closed_by_server; refused]
           (fresh_adapter, quiet_world)).
  - reflexivity.
  - discriminate.
Defined.

Lemma backoff_nth (cap : Z) (n : nat) : forall (d : Z) (k : nat),
  0 < d <= cap -> (k < n)%nat ->
  nth_error (backoff cap d n) k = Some (Z.min (d * 2 ^ Z.of_nat k) cap).
Proof.
  induction n as [|n IH]; intros d k Hd Hk; [lia|].
  destruct k as [|k]; simpl backoff; simpl nth_error.
  - f_equal. change (2 ^ Z.of_nat 0) with 1. lia.
  - rewrite IH by lia. f_equal.
    rewrite Nat2Z.inj_succ, Z.pow_succ_r by lia.
    assert (Hpow : 0 < 2 ^ Z.of_nat k) by (apply Z.pow_pos_nonneg; lia).
    generalize dependent (2 ^ Z.of_nat k). intros p Hp.
    destruct (Z.le_gt_cases (d * 2) cap) as [Hc|Hc].
    + rewrite (Z.min_l (d * 2) cap) by exact Hc.
      f_equal. lia.
    + rewrite (Z.min_r (d * 2) cap) by lia.
      rewrite (Z.min_r (cap * p) cap) by nia.
      rewrite (Z.min_r (d * (2 * p)) cap) by nia.
      reflexivity.
Qed.

(** X26.  While the connection keeps being refused the waits double
    from the initial delay up to the maximum: the wait before attempt
    number [k+1] is [min(initial * 2^k, maximum)]. *)
Theorem X26_refused_attempts_double_the_wait
    (n k : nat) (self : t) (w : world) :
  0 < _reconnect_delay self <= _max_reconnect_delay self ->
  (k < n)%nat ->
  nth_error (waits (_ws_loop (repeat refused n) (self, w)))
    (length (slept w) + k)
  = Some (Z.min (_reconnect_delay self * 2 ^ Z.of_nat k)
            (_max_reconnect_delay self)).
Proof.
  intros Hd Hk. unfold _ws_loop, bind, get_self. cbn [fst snd].
  destruct (loop_refused (repeat refused n)) with (d := _reconnect_delay self)
    (self := self) (w := w) as (d' & w' & E & S).
  { apply Forall_forall. intros a Ha. apply repeat_spec in Ha. now subst. }
  unfold waits. rewrite E. cbn [fst snd].
  rewrite S, repeat_length, nth_error_app2 by lia.
  replace (length (slept w) + k - length (slept w))%nat with k by lia.
  now apply backoff_nth.
Qed.

Lemma X26_refused_attempts_double_the_wait_witness :
  nth_error (waits (_ws_loop (repeat refused 6) (fresh_adapter, quiet_world)))
    (length (slept quiet_world) + 4)
  = Some (Z.min (_reconnect_delay fresh_adapter * 2 ^ Z.of_nat 4)
            (_max_reconnect_delay fresh_adapter)).
Proof.
  apply (X26_refused_attempts_double_the_wait 6 4 fresh_adapter quiet_world).
  - split; [reflexivity|discriminate].
  - repeat constructor.
Defined.

End Backoff.

(* ================================================================== *)
(** * Auto browse *)

Section Browse.

Import AstrBookAdapter.

(** One turn of the browse loop: it returns whether or not the cycle
    fails, queues the event of the cycle when the commit goes through,
    and waits [browse_interval]. *)
Lemma _auto_browse_turn_run c b :
  exists b',
    _auto_browse_turn c b = (inr tt, b')
    /\ events_of b'
       = events_of b
         ++ match cycle_fault c with
            | None => [browse_event c (fst (fst b))]
            | Some _ => []
            end
    /\ slept (snd (fst b'))
       = slept (snd (fst b)) ++ [browse_interval (fst (fst b))]
    /\ browse_interval (fst (fst b')) = browse_interval (fst (fst b))
    /\ bot_user_id (fst (fst b')) = bot_user_id (fst (fst b))
    /\ memory (fst (fst b')) = memory (fst (fst b))
    /\ disk (snd (fst b')) = disk (snd (fst b)).
Proof.
  destruct b as [[self w] lg].
  unfold _auto_browse_turn, _do_browse, try_except, bind, browse_logger,
    in_adapter, in_world, zoom, get_self, commit_event, bind, get_self,
    put_self, raise, sleep, events_of, browse_event.
  cbn [fst snd].
  destruct (cycle_fault c) as [e|]; cbn [fst snd];
    eexists; (split; [reflexivity|]); cbn [fst snd];
    repeat split.
  now rewrite app_nil_r.
Qed.

Lemma _auto_browse_turns_run cs : forall b,
  exists b',
    _auto_browse_turns cs b = (inr tt, b')
    /\ events_of b' = events_of b ++ browse_events cs (fst (fst b))
    /\ slept (snd (fst b'))
       = slept (snd (fst b))
         ++ repeat (browse_interval (fst (fst b))) (length cs)
    /\ memory (fst (fst b')) = memory (fst (fst b))
    /\ disk (snd (fst b')) = disk (snd (fst b)).
Proof.
  induction cs as [|c cs IH]; intros b; simpl.
  - exists b. unfold browse_events. simpl. rewrite !app_nil_r.
    repeat split.
  - destruct (_auto_browse_turn_run c b)
      as (b1 & E1 & Q1 & S1 & I1 & U1 & M1 & D1).
    unfold bind. rewrite E1.
    destruct (IH b1) as (b' & E2 & Q2 & S2 & M2 & D2).
    exists b'. split; [exact E2|].
    rewrite Q2, Q1, S2, S1, I1, M2, M1, D2, D1, <- !app_assoc.
    repeat split. f_equal.
    unfold browse_events, browse_event. rewrite U1. simpl.
    now destruct (cycle_fault c).
Qed.

(** X27.  The browse loop keeps its pace whatever happens inside a
    cycle: it never propagates an exception, it waits 60 seconds before
    the first cycle and then [browse_interval] after every cycle, the
    failed ones included. *)
Theorem X27_browse_loop_keeps_its_pace cs b :
  exists b',
    _auto_browse_loop cs b = (inr tt, b')
    /\ slept (snd (fst b'))
       = slept (snd (fst b))
         ++ 60%Z :: repeat (browse_interval (fst (fst b))) (length cs).
Proof.
  destruct b as [[self w] lg].
  unfold _auto_browse_loop, bind at 1. unfold in_adapter, in_world, zoom, sleep.
  cbn [fst snd].
  match goal with |- context [_auto_browse_turns cs ?b0] =>
    destruct (_auto_browse_turns_run cs b0) as (b' & E & _ & S & _) end.
  exists b'. split; [exact E|].
  rewrite S. cbn [fst snd slept]. now rewrite <- app_assoc.
Qed.

(** X28.  The browse loop queues one event per cycle whose commit goes
    through, in the order of the cycles, and none for a cycle that
    fails.  Each event carries the browse prompt, wakes the bot, belongs
    to the session [astrbook_browse_system] and is identified by
    [browse_<uuid>].  The loop leaves the memory store and the file on
    disk as they were. *)
Theorem X28_browse_loop_queues_one_event_per_cycle cs b :
  exists b' new,
    _auto_browse_loop cs b = (inr tt, b')
    /\ events_of b' = events_of b ++ new
    /\ map ev_message_id new
       = map (fun c => lit "browse_" ++ uuid_hex (cycle_tick c))
           (committed cs)
    /\ Forall (fun ev =>
                 ev_message_str ev = _format_browse_content
                 /\ ev_session_id ev = lit "astrbook_browse_system"
                 /\ ev_is_wake ev = true
                 /\ ev_is_at_or_wake_command ev = true
                 /\ ev_thread_id ev = None) new
    /\ memory (fst (fst b')) = memory (fst (fst b))
    /\ disk (snd (fst b')) = disk (snd (fst b)).
Proof.
  destruct b as [[self w] lg].
  unfold _auto_browse_loop, bind at 1. unfold in_adapter, in_world, zoom, sleep.
  cbn [fst snd].
  match goal with |- context [_auto_browse_turns cs ?b0] =>
    destruct (_auto_browse_turns_run cs b0) as (b' & E & Q & _ & Hm & Hd) end.
  exists b', (browse_events cs self). split; [exact E|].
  cbn [fst snd] in *. split; [exact Q|]. split; [|split; [|split]].
  - unfold browse_events. rewrite map_map. reflexivity.
  - unfold browse_events. apply Forall_forall. intros ev Hin.
    apply in_map_iff in Hin. destruct Hin as (c & <- & _).
    repeat split.
  - exact Hm.
  - exact Hd.
Qed.

End Browse.

Section Sessions.

Import AstrBookAdapter.




End Sessions.

(* ================================================================== *)
(** * From the constructor to the reconnection loop *)

Section Constructed.

Import AstrBookAdapter.

Local Open Scope Z_scope.

(** X30.  Every adapter the constructor returns, whatever the
    configuration holds, reconnects within fixed bounds: on any sequence
    of connection attempts, and from any world, its reconnection loop
    propagates no exception, waits once per attempt, and every wait lies
    between 5 and 60 seconds. *)
Theorem X30_constructed_adapter_waits_between_5_and_60
    (platform_config : config) (w w1 w2 : world) (self : t)
    (atts : list attempt) :
  __init__ platform_config w = (inr self, w1) ->
  exists d' s' ws,
    _ws_loop atts (self, w2) = (inr d', s')
    /\ slept (snd s') = slept w2 ++ ws
    /\ length ws = length atts
    /\ Forall (fun x => 5 <= x <= 60) ws.
Proof.
  unfold __init__, bind.
  destruct (ForumMemory.__init__ _ w) as [[e|mem] w'];
    [discriminate|].
  unfold ret. intros H. injection H as <- _.
  unfold _ws_loop, bind, get_self. cbn [fst snd _reconnect_delay].
  match goal with |- context [_ws_loop_from atts 5 ?s0] =>
    destruct (loop_bounded atts 5 s0) as (d' & s' & ws & E & S & L & F);
      [reflexivity|discriminate|split; discriminate|]
  end.
  exists d', s', ws. repeat split; assumption.
Qed.

Lemma X30_constructed_adapter_waits_between_5_and_60_witness :
  exists d' s' ws,
    _ws_loop [refused; closed_by_server; garbled] (fresh_adapter, quiet_world)
    = (inr d', s')
    /\ slept (snd s') = slept quiet_world ++ ws
    /\ length ws = length [refused; closed_by_server; garbled]
    /\ Forall (fun x => 5 <= x <= 60) ws.
Proof.
  apply (X30_constructed_adapter_waits_between_5_and_60
           (mkConfig (Some (lit "secret")) None None None)
           quiet_world quiet_world quiet_world fresh_adapter).
  vm_compute. reflexivity.
Defined.

End Constructed.
